(** * Trending-YouTube-Video-Scraper-by-Keyword: the normalisation, pagination
      and filtering pipeline

    Shallow embedding of [data_processor.py] (the title-search variant, which
    extends the general-search one with the duration codec) and of
    [search_handler.py], with the properties of the pipeline proved over it.

    Python values are embedded as the JSON fragment the remote API delivers
    (no floats).  A [str] is a [string] whose characters are read as the code
    points U+0000..U+00FF; an [int] is a [Z]; a [dict] with string keys is an
    association list in insertion order, the first binding of a key being the
    live one.  A raised exception is the [Raise] branch of [result]. *)

From Stdlib Require Import ZArith NArith List Bool Lia.
From Stdlib Require Import Strings.String Strings.Ascii.
From Stdlib Require Import Numbers.DecimalString Numbers.DecimalZ Numbers.DecimalPos Numbers.DecimalN.
From Stdlib Require Import Sorting.Permutation Sorting.Sorted.
From Stdlib Require Import Structures.OrderedTypeEx.
Import ListNotations.

Set Warnings "-register-all".

Local Open Scope string_scope.
Local Open Scope list_scope.
Local Open Scope Z_scope.

(* ================================================================== *)
(** ** Exceptions as results *)

Inductive exn : Type :=
| TypeError
| ValueError
| AttributeError
| KeyError
| ClientError.

Inductive result (A : Type) : Type :=
| Ok (a : A)
| Raise (e : exn).

Arguments Ok {A} a.
Arguments Raise {A} e.

Definition bind {A B : Type} (r : result A) (k : A -> result B) : result B :=
  match r with
  | Ok a => k a
  | Raise e => Raise e
  end.

Notation "x <- c1 ;; c2" := (bind c1 (fun x => c2))
  (at level 61, c1 at next level, right associativity).

(** A list comprehension whose body may raise. *)
Fixpoint mapM {A B : Type} (f : A -> result B) (l : list A) : result (list B) :=
  match l with
  | [] => Ok []
  | x :: l' => y <- f x ;; ys <- mapM f l' ;; Ok (y :: ys)
  end.

(** A list comprehension with a condition that may raise. *)
Fixpoint filterM {A : Type} (p : A -> result bool) (l : list A) : result (list A) :=
  match l with
  | [] => Ok []
  | x :: l' => b <- p x ;; ys <- filterM p l' ;; Ok (if b then x :: ys else ys)
  end.

(* ================================================================== *)
(** ** Python values and the builtins the pipeline calls *)

Module Py.

Inductive pyval : Type :=
| PNone
| PBool (b : bool)
| PInt (z : Z)
| PStr (s : string)
| PList (l : list pyval)
| PDict (d : list (string * pyval)).

Definition dict : Type := list (string * pyval).

Fixpoint assoc (k : string) (d : dict) : option pyval :=
  match d with
  | [] => None
  | (k', v) :: d' => if String.eqb k k' then Some v else assoc k d'
  end.

(** [d.get(k, default)] on a value known to be a dict. *)
Definition dget (d : dict) (k : string) (default : pyval) : pyval :=
  match assoc k d with
  | Some v => v
  | None => default
  end.

(** [v.get(k, default)]: only a dict has the method. *)
Definition py_get (v : pyval) (k : string) (default : pyval) : result pyval :=
  match v with
  | PDict d => Ok (dget d k default)
  | _ => Raise AttributeError
  end.

(** Truth value, as tested by [if], [not] and the conditional expression. *)
Definition truthy (v : pyval) : bool :=
  match v with
  | PNone => false
  | PBool b => b
  | PInt z => negb (z =? 0)
  | PStr s => negb (String.eqb s "")
  | PList l => match l with [] => false | _ => true end
  | PDict d => match d with [] => false | _ => true end
  end.

(** *** Characters *)

Definition code (c : ascii) : N := N_of_ascii c.

Definition is_digit (c : ascii) : bool :=
  (48 <=? code c)%N && (code c <=? 57)%N.

Definition digit_val (c : ascii) : Z := Z.of_N (code c) - 48.

(** Whitespace skipped by [int()] around the numeral: the ASCII blanks and
    the two Unicode spaces of the Latin-1 range. *)
Definition is_space (c : ascii) : bool :=
  ((9 <=? code c)%N && (code c <=? 13)%N)
  || (code c =? 32)%N || (code c =? 133)%N || (code c =? 160)%N.

(** [str.lower()] on U+0000..U+00FF: A-Z and the accented capitals
    U+00C0..U+00DE (the multiplication sign U+00D7 apart) move up by 32. *)
Definition lower_char (c : ascii) : ascii :=
  let n := code c in
  if ((65 <=? n)%N && (n <=? 90)%N)
     || ((192 <=? n)%N && (n <=? 222)%N && negb (n =? 215)%N)
  then ascii_of_N (n + 32) else c.

Fixpoint lower (s : string) : string :=
  match s with
  | EmptyString => EmptyString
  | String c s' => String (lower_char c) (lower s')
  end.

(** *** Strings *)

Fixpoint prefixb (p s : string) : bool :=
  match p, s with
  | EmptyString, _ => true
  | String a p', String b s' => Ascii.eqb a b && prefixb p' s'
  | String _ _, EmptyString => false
  end.

(** [k in s] for two strings. *)
Fixpoint str_in (k s : string) : bool :=
  prefixb k s ||
  match s with
  | EmptyString => false
  | String _ s' => str_in k s'
  end.

Fixpoint firstn_str (n : nat) (s : string) : string :=
  match n, s with
  | O, _ => EmptyString
  | S _, EmptyString => EmptyString
  | S n', String c s' => String c (firstn_str n' s')
  end.

Fixpoint join (sep : string) (l : list string) : string :=
  match l with
  | [] => EmptyString
  | [x] => x
  | x :: l' => (x ++ sep ++ join sep l')%string
  end.

Fixpoint chars (s : string) : list pyval :=
  match s with
  | EmptyString => []
  | String c s' => PStr (String c EmptyString) :: chars s'
  end.

(** *** [str(int)] and [int(str)] *)

Definition str_of_int (z : Z) : string := NilEmpty.string_of_int (Z.to_int z).

(** The digits of a numeral, single underscores allowed between two digits;
    [prev] tells that the previous character was a digit. *)
Fixpoint parse_digits (s : string) (acc : Z) (prev : bool) : option Z :=
  match s with
  | EmptyString => if prev then Some acc else None
  | String c s' =>
      if is_digit c then parse_digits s' (acc * 10 + digit_val c) true
      else if Ascii.eqb c "_" && prev then parse_digits s' acc false
      else None
  end.

Fixpoint lstrip (s : string) : string :=
  match s with
  | EmptyString => EmptyString
  | String c s' => if is_space c then lstrip s' else s
  end.

Fixpoint rstrip (s : string) : string :=
  match s with
  | EmptyString => EmptyString
  | String c s' =>
      match rstrip s' with
      | EmptyString => if is_space c then EmptyString else String c EmptyString
      | r => String c r
      end
  end.

Definition int_of_str (s : string) : option Z :=
  match rstrip (lstrip s) with
  | String "+" r => parse_digits r 0 false
  | String "-" r => option_map Z.opp (parse_digits r 0 false)
  | t => parse_digits t 0 false
  end.

(** [int(v)].  The interpreter's optional cap on the number of digits of a
    numeral is not part of the model: integers are unbounded. *)
Definition py_int (v : pyval) : result Z :=
  match v with
  | PInt z => Ok z
  | PBool b => Ok (if b then 1 else 0)
  | PStr s => match int_of_str s with Some z => Ok z | None => Raise ValueError end
  | _ => Raise TypeError
  end.

(** *** [repr] and [str] *)

Definition quote1 : ascii := ascii_of_N 39.
Definition quote2 : ascii := ascii_of_N 34.
Definition backslash : ascii := ascii_of_N 92.

Definition hex_digit (n : N) : ascii :=
  if (n <? 10)%N then ascii_of_N (48 + n) else ascii_of_N (87 + n).

Definition hex_escape (c : ascii) : string :=
  String backslash
    (String "x" (String (hex_digit (code c / 16)) (String (hex_digit (code c mod 16)) ""))).

Fixpoint mem_char (c : ascii) (s : string) : bool :=
  match s with
  | EmptyString => false
  | String a s' => Ascii.eqb a c || mem_char c s'
  end.

Definition repr_char (q c : ascii) : string :=
  let n := code c in
  if Ascii.eqb c q || Ascii.eqb c backslash then String backslash (String c "")
  else if (n =? 9)%N then String backslash "t"
  else if (n =? 10)%N then String backslash "n"
  else if (n =? 13)%N then String backslash "r"
  else if (n <? 32)%N || (n =? 127)%N then hex_escape c
  else if (n <? 127)%N then String c ""
  else if (n <=? 160)%N || (n =? 173)%N then hex_escape c
  else String c "".

Fixpoint repr_chars (q : ascii) (s : string) : string :=
  match s with
  | EmptyString => EmptyString
  | String c s' => (repr_char q c ++ repr_chars q s')%string
  end.

Definition repr_str (s : string) : string :=
  let q := if mem_char quote1 s && negb (mem_char quote2 s) then quote2 else quote1 in
  String q (repr_chars q s ++ String q "")%string.

Fixpoint py_repr (v : pyval) : string :=
  match v with
  | PNone => "None"
  | PBool true => "True"
  | PBool false => "False"
  | PInt z => str_of_int z
  | PStr s => repr_str s
  | PList l => ("[" ++ join ", " (map py_repr l) ++ "]")%string
  | PDict d =>
      ("{" ++ join ", " (map (fun '(k, x) => repr_str k ++ ": " ++ py_repr x) d) ++ "}")%string
  end.

(** [str(v)], which is what a replacement field of an f-string inserts. *)
Definition py_str (v : pyval) : string :=
  match v with
  | PStr s => s
  | _ => py_repr v
  end.

(** *** Comparisons *)

Definition as_int (v : pyval) : option Z :=
  match v with
  | PInt z => Some z
  | PBool b => Some (if b then 1 else 0)
  | _ => None
  end.

(** [a == b]; a bool compares as the integer it is, dicts compare as
    mappings. *)
Fixpoint py_eq (a b : pyval) : bool :=
  match a, b with
  | PNone, PNone => true
  | PStr s, PStr t => String.eqb s t
  | PList l, PList m =>
      (fix go (l m : list pyval) : bool :=
         match l, m with
         | [], [] => true
         | x :: l', y :: m' => py_eq x y && go l' m'
         | _, _ => false
         end) l m
  | PDict d, PDict e =>
      (List.length d =? List.length e)%nat &&
      (fix go (d : list (string * pyval)) : bool :=
         match d with
         | [] => true
         | (k, x) :: d' =>
             match assoc k e with
             | Some y => py_eq x y
             | None => false
             end && go d'
         end) d
  | _, _ =>
      match as_int a, as_int b with
      | Some x, Some y => x =? y
      | _, _ => false
      end
  end.

(** [a < b]: integers (bools included) among themselves, strings by code
    point, lists lexicographically; every other pair is unorderable. *)
Fixpoint py_lt (a b : pyval) : result bool :=
  match a, b with
  | PStr s, PStr t => Ok (String.ltb s t)
  | PList l, PList m =>
      (fix go (l m : list pyval) : result bool :=
         match l, m with
         | [], [] => Ok false
         | [], _ :: _ => Ok true
         | _ :: _, [] => Ok false
         | x :: l', y :: m' => if py_eq x y then go l' m' else py_lt x y
         end) l m
  | _, _ =>
      match as_int a, as_int b with
      | Some x, Some y => Ok (x <? y)
      | _, _ => Raise TypeError
      end
  end.

(** [v >= m] against an integer [m]. *)
Definition py_ge_int (v : pyval) (m : Z) : result bool :=
  match as_int v with
  | Some x => Ok (m <=? x)
  | None => Raise TypeError
  end.

(** *** Iteration, [join] and slicing *)

(** The items [for x in v] visits. *)
Definition py_iter (v : pyval) : result (list pyval) :=
  match v with
  | PList l => Ok l
  | PStr s => Ok (chars s)
  | PDict d => Ok (map (fun kv => PStr (fst kv)) d)
  | _ => Raise TypeError
  end.

Definition as_str (v : pyval) : result string :=
  match v with
  | PStr s => Ok s
  | _ => Raise TypeError
  end.

(** [sep.join(v)]. *)
Definition py_join (sep : string) (v : pyval) : result string :=
  items <- py_iter v ;;
  strs <- mapM as_str items ;;
  Ok (join sep strs).

(** [v[:n]] for a non-negative [n]. *)
Definition py_slice_to (n : nat) (v : pyval) : result pyval :=
  match v with
  | PStr s => Ok (PStr (firstn_str n s))
  | PList l => Ok (PList (firstn n l))
  | _ => Raise TypeError
  end.

(** [v.lower()]: a string method. *)
Definition py_lower (v : pyval) : result pyval :=
  match v with
  | PStr s => Ok (PStr (lower s))
  | _ => Raise AttributeError
  end.

(** [k in v] for a string [k]: substring of a string, member of a list, key
    of a dict. *)
Definition py_contains (v : pyval) (k : string) : result bool :=
  match v with
  | PStr s => Ok (str_in k s)
  | PList l => Ok (existsb (py_eq (PStr k)) l)
  | PDict d => Ok (existsb (fun kv => String.eqb k (fst kv)) d)
  | _ => Raise TypeError
  end.

(** [v[k]] for a string key [k]. *)
Definition py_subscript (v : pyval) (k : string) : result pyval :=
  match v with
  | PDict d => match assoc k d with Some x => Ok x | None => Raise KeyError end
  | _ => Raise TypeError
  end.

(** [range(0, stop, step)] for a positive [step]. *)
Definition range_from0 (stop step : nat) : list nat :=
  map (fun k => (k * step)%nat) (seq 0 ((stop + step - 1) / step)%nat).

(** [l[i:j]] for [0 <= i <= j]. *)
Definition slice {A : Type} (l : list A) (i j : nat) : list A :=
  firstn (j - i) (skipn i l).

(** *** [sorted]

    The ascending sort compares with [<] only and is stable: an element goes
    behind every earlier element it is not smaller than.  With
    [reverse=True] the list is reversed, sorted ascending and reversed again,
    which keeps equal keys in input order.  Keys are taken once, before any
    comparison.  Where all keys are pairwise comparable the result does not
    depend on the order in which the interpreter's own sort compares them;
    where two keys are unorderable, every comparison sort has to compare a
    pair of unorderable keys and raises. *)

Section Sorted.
Context {A : Type}.
Variable key : A -> pyval.

Fixpoint insert_sorted (x : A) (l : list A) : result (list A) :=
  match l with
  | [] => Ok [x]
  | y :: l' =>
      b <- py_lt (key x) (key y) ;;
      if b then Ok (x :: l)
      else (r <- insert_sorted x l' ;; Ok (y :: r))
  end.

Fixpoint sort_into (acc : list A) (l : list A) : result (list A) :=
  match l with
  | [] => Ok acc
  | x :: l' => acc' <- insert_sorted x acc ;; sort_into acc' l'
  end.

Definition sorted (reverse : bool) (l : list A) : result (list A) :=
  if reverse
  then (r <- sort_into [] (rev l) ;; Ok (rev r))
  else sort_into [] l.
End Sorted.

(** *** [str.replace] and the regular expressions of the duration parser *)

Fixpoint intersperse (new s : string) : string :=
  match s with
  | EmptyString => new
  | String c s' => (new ++ String c (intersperse new s'))%string
  end.

Fixpoint replace_from (old new : string) (skip : nat) (s : string) : string :=
  match s with
  | EmptyString => EmptyString
  | String c s' =>
      match skip with
      | S k => replace_from old new k s'
      | O =>
          if prefixb old s
          then (new ++ replace_from old new (Nat.pred (String.length old)) s')%string
          else String c (replace_from old new O s')
      end
  end.

(** [s.replace(old, new)]: every occurrence, left to right, without overlap. *)
Definition str_replace (old new s : string) : string :=
  match old with
  | EmptyString => intersperse new s
  | _ => replace_from old new O s
  end.

(** The longest run of decimal digits at the head of [s], and what follows. *)
Fixpoint span_digits (s : string) : string * string :=
  match s with
  | EmptyString => (EmptyString, EmptyString)
  | String c s' =>
      if is_digit c
      then let (ds, rest) := span_digits s' in (String c ds, rest)
      else (EmptyString, s)
  end.

(** [re.search(r'(\d+)X', s)] for a letter [X], giving group 1 of the
    leftmost match: at each start position the run of digits is taken whole
    (a shorter run would have to be followed by [X], which is no digit). *)
Fixpoint re_search_digits (X : ascii) (s : string) : option string :=
  match s with
  | EmptyString => None
  | String _ s' =>
      match span_digits s with
      | (String d ds, String x _) =>
          if Ascii.eqb x X then Some (String d ds) else re_search_digits X s'
      | _ => re_search_digits X s'
      end
  end.

End Py.

(* ================================================================== *)
(** ** data_processor.py *)

Module DataProcessor.
Import Py.

(** [parse_duration]: ISO 8601 duration to seconds. *)
Definition duration_component (X : ascii) (s : string) : result Z :=
  match re_search_digits X s with
  | Some g => py_int (PStr g)
  | None => Ok 0
  end.

Definition parse_duration (duration_str : pyval) : result Z :=
  if negb (truthy duration_str) || py_eq duration_str (PStr "N/A") then Ok 0
  else
    match duration_str with
    | PStr s =>
        let s := str_replace "PT" "" s in
        hours <- duration_component "H" s ;;
        minutes <- duration_component "M" s ;;
        seconds <- duration_component "S" s ;;
        Ok (hours * 3600 + minutes * 60 + seconds)
    | _ => Raise AttributeError
    end.

(** The format specification [02d]: zero-padded to width 2. *)
Definition pad2 (z : Z) : string :=
  let s := str_of_int z in
  if (String.length s <? 2)%nat then ("0" ++ s)%string else s.

Definition format_duration (seconds : Z) : string :=
  if seconds =? 0 then "0:00"
  else
    let hours := seconds / 3600 in
    let minutes := (seconds mod 3600) / 60 in
    let secs := seconds mod 60 in
    if 0 <? hours
    then (str_of_int hours ++ ":" ++ pad2 minutes ++ ":" ++ pad2 secs)%string
    else (str_of_int minutes ++ ":" ++ pad2 secs)%string.

Definition is_youtube_short (duration_seconds : Z) : bool :=
  (0 <? duration_seconds) && (duration_seconds <=? 60).

Definition get_video_type (duration_seconds : Z) : string :=
  if duration_seconds =? 0 then "Unknown"
  else if duration_seconds <=? 60 then "Short"
  else if duration_seconds <=? 240 then "Short Video"
  else if duration_seconds <=? 600 then "Medium Video"
  else if duration_seconds <=? 1200 then "Long Video"
  else "Very Long Video".

(** [extract_video_info]: one raw API item to one flat record. *)
Definition extract_video_info (video : dict) : result dict :=
  let snippet := dget video "snippet" (PDict []) in
  let statistics := dget video "statistics" (PDict []) in
  let content_details := dget video "contentDetails" (PDict []) in
  view_raw <- py_get statistics "viewCount" (PInt 0) ;;
  view_count <- py_int view_raw ;;
  duration_iso <- py_get content_details "duration" (PStr "N/A") ;;
  duration_seconds <- parse_duration duration_iso ;;
  let duration_formatted := format_duration duration_seconds in
  let is_short := is_youtube_short duration_seconds in
  let video_type := get_video_type duration_seconds in
  tags <- py_get snippet "tags" (PList []) ;;
  tags_string <- (if truthy tags then py_join ", " tags else Ok "No tags") ;;
  thumbnails <- py_get snippet "thumbnails" (PDict []) ;;
  thumbnail_high <- py_get thumbnails "high" (PDict []) ;;
  thumb_url <- py_get thumbnail_high "url" (PStr "") ;;
  thumb_width <- py_get thumbnail_high "width" (PInt 0) ;;
  thumb_height <- py_get thumbnail_high "height" (PInt 0) ;;
  let thumbnail_info :=
    [("url", thumb_url); ("width", thumb_width); ("height", thumb_height)] in
  let thumbnail_string :=
    if truthy thumb_url then thumb_url else PStr "No thumbnail" in
  full_description <- py_get snippet "description" (PStr "") ;;
  title <- py_get snippet "title" (PStr "") ;;
  channel <- py_get snippet "channelTitle" (PStr "") ;;
  channel_id <- py_get snippet "channelId" (PStr "") ;;
  published_at <- py_get snippet "publishedAt" (PStr "") ;;
  description_short <- py_slice_to 500 full_description ;;
  like_raw <- py_get statistics "likeCount" (PInt 0) ;;
  like_count <- py_int like_raw ;;
  comment_raw <- py_get statistics "commentCount" (PInt 0) ;;
  comment_count <- py_int comment_raw ;;
  Ok [ ("video_id", dget video "id" PNone);
       ("title", title);
       ("channel", channel);
       ("channel_id", channel_id);
       ("published_at", published_at);
       ("description", full_description);
       ("description_short", description_short);
       ("view_count", PInt view_count);
       ("like_count", PInt like_count);
       ("comment_count", PInt comment_count);
       ("duration", PStr duration_formatted);
       ("duration_seconds", PInt duration_seconds);
       ("is_short", PBool is_short);
       ("video_type", PStr video_type);
       ("tags", PStr tags_string);
       ("tags_list", tags);
       ("thumbnail_url", thumbnail_string);
       ("thumbnail_object", PDict thumbnail_info);
       ("url", PStr ("https://www.youtube.com/watch?v="
                     ++ py_str (dget video "id" PNone))%string) ].

(** The general-search variant of [extract_video_info]: no duration codec,
    the description cut to 500 characters, the duration token kept as is. *)
Definition extract_video_info_general (video : dict) : result dict :=
  let snippet := dget video "snippet" (PDict []) in
  let statistics := dget video "statistics" (PDict []) in
  view_raw <- py_get statistics "viewCount" (PInt 0) ;;
  view_count <- py_int view_raw ;;
  duration <- py_get (dget video "contentDetails" (PDict [])) "duration" (PStr "N/A") ;;
  tags <- py_get snippet "tags" (PList []) ;;
  tags_string <- (if truthy tags then py_join ", " tags else Ok "No tags") ;;
  title <- py_get snippet "title" (PStr "") ;;
  channel <- py_get snippet "channelTitle" (PStr "") ;;
  channel_id <- py_get snippet "channelId" (PStr "") ;;
  published_at <- py_get snippet "publishedAt" (PStr "") ;;
  description_raw <- py_get snippet "description" (PStr "") ;;
  description <- py_slice_to 500 description_raw ;;
  like_raw <- py_get statistics "likeCount" (PInt 0) ;;
  like_count <- py_int like_raw ;;
  comment_raw <- py_get statistics "commentCount" (PInt 0) ;;
  comment_count <- py_int comment_raw ;;
  thumbnails <- py_get snippet "thumbnails" (PDict []) ;;
  thumbnail_high <- py_get thumbnails "high" (PDict []) ;;
  thumb_url <- py_get thumbnail_high "url" (PStr "") ;;
  Ok [ ("video_id", dget video "id" PNone);
       ("title", title);
       ("channel", channel);
       ("channel_id", channel_id);
       ("published_at", published_at);
       ("description", description);
       ("view_count", PInt view_count);
       ("like_count", PInt like_count);
       ("comment_count", PInt comment_count);
       ("duration", duration);
       ("tags", PStr tags_string);
       ("tags_list", tags);
       ("url", PStr ("https://www.youtube.com/watch?v="
                     ++ py_str (dget video "id" PNone))%string);
       ("thumbnail_url", thumb_url) ].

(** [filter_by_video_type]: [v.get('video_type') in video_types]. *)
Definition filter_by_video_type (videos : list dict) (video_types : list string)
    : list dict :=
  filter (fun v => existsb (fun t => py_eq (PStr t) (dget v "video_type" PNone))
                     video_types) videos.

(** [filter_shorts_only] and [filter_regular_videos_only]. *)
Definition filter_shorts_only (videos : list dict) : list dict :=
  filter (fun v => truthy (dget v "is_short" (PBool false))) videos.

Definition filter_regular_videos_only (videos : list dict) : list dict :=
  filter (fun v => negb (truthy (dget v "is_short" (PBool false)))) videos.

(** The chained comparison [lo <= v <= hi] of [filter_by_duration]; [hi] is
    an integer or, as [None], the default [float('inf')].  The second
    comparison is made only when the first holds. *)
Definition between (lo : Z) (v : pyval) (hi : option Z) : result bool :=
  match as_int v with
  | None => Raise TypeError
  | Some x =>
      if lo <=? x
      then Ok match hi with
              | Some h => x <=? h
              | None => true
              end
      else Ok false
  end.

(** [filter_by_duration]. *)
Definition filter_by_duration (videos : list dict) (min_seconds : Z)
    (max_seconds : option Z) : result (list dict) :=
  filterM (fun v => between min_seconds (dget v "duration_seconds" (PInt 0)) max_seconds)
    videos.

(** [filter_by_views]. *)
Definition filter_by_views (videos : list dict) (min_views : Z) : result (list dict) :=
  filterM (fun v => py_ge_int (dget v "view_count" (PInt 0)) min_views) videos.

(** [any(keyword in title for keyword in keywords)], left to right, stopping
    at the first hit. *)
Fixpoint any_keyword_in (title : pyval) (keywords : list string) : result bool :=
  match keywords with
  | [] => Ok false
  | keyword :: rest =>
      b <- py_contains title keyword ;;
      if b then Ok true else any_keyword_in title rest
  end.

(** The loop of [filter_by_keywords_in_title]; [keywords] is rebound in each
    iteration when the match is case insensitive. *)
Fixpoint filter_title_loop (case_sensitive : bool) (videos : list dict)
    (keywords : list string) (filtered : list dict) : result (list dict) :=
  match videos with
  | [] => Ok filtered
  | video :: rest =>
      let title := dget video "title" (PStr "") in
      title' <- (if negb case_sensitive then py_lower title else Ok title) ;;
      let keywords' := if negb case_sensitive then map lower keywords else keywords in
      hit <- any_keyword_in title' keywords' ;;
      filter_title_loop case_sensitive rest keywords'
        (if hit then filtered ++ [video] else filtered)
  end.

Definition filter_by_keywords_in_title (videos : list dict) (keywords : list string)
    (case_sensitive : bool) : result (list dict) :=
  filter_title_loop case_sensitive videos keywords [].

(** [sort_videos]. *)
Definition sort_videos (videos : list dict) (sort_by : string) (descending : bool)
    : result (list dict) :=
  sorted (fun x => dget x sort_by (PInt 0)) descending videos.

(** [process_video_batch]; the callees' default arguments are written out. *)
Definition process_video_batch (raw_videos : list dict) (min_views : Z)
    (filter_keywords : option (list string)) : result (list dict) :=
  processed <- mapM extract_video_info raw_videos ;;
  processed <- filter_by_views processed min_views ;;
  processed <-
    match filter_keywords with
    | Some (k :: ks) => filter_by_keywords_in_title processed (k :: ks) false
    | _ => Ok processed
    end ;;
  sort_videos processed "view_count" true.

End DataProcessor.

(* ================================================================== *)
(** ** search_handler.py *)

Module SearchHandler.
Import Py.

(** The keyword arguments of [client.search_videos]. *)
Record search_request : Type := {
  query : string;
  max_results : Z;
  order : string;
  page_token : pyval;
  published_after : option string;
  published_before : option string
}.

(** The attributes of a [SearchHandler] besides the client.  The progress
    messages the methods print and the pause between two requests have no
    part in what they return and are left out. *)
Record handler : Type := {
  search_results : list pyval;
  video_details : list pyval
}.

(** What one call to the client was given and what came back. *)
Definition search_call : Type := search_request * result pyval.
Definition details_call : Type := list pyval * result pyval.

Section Client.
(** The injected client: a state and the two requests the handler sends;
    a request answers with a response or raises. *)
Variable C : Type.
Variable client_search_videos : C -> search_request -> result pyval * C.
Variable client_get_video_details : C -> list pyval -> result pyval * C.

(** After the request: what the [try] body does with the response up to
    and including [all_videos.extend]. *)
Definition page_items (response : pyval) : result (list pyval) :=
  videos <- py_get response "items" (PList []) ;;
  py_iter videos.

(** The [while] loop of [search_videos_with_keywords]; [None] when the
    loop is still running after [fuel] iterations.  The result carries the
    calls issued, in order. *)
Fixpoint search_loop (fuel : nat) (q ord : string) (after before : option string)
    (max_total_results : Z) (c : C) (all_videos : list pyval)
    (next_page_token : pyval) (calls : list search_call)
    : option (list pyval * C * list search_call) :=
  if Z.of_nat (List.length all_videos) <? max_total_results then
    match fuel with
    | O => None
    | S fuel' =>
        let req := {| query := q;
                      max_results := Z.min 50 (max_total_results
                                               - Z.of_nat (List.length all_videos));
                      order := ord;
                      page_token := next_page_token;
                      published_after := after;
                      published_before := before |} in
        let (answer, c') := client_search_videos c req in
        let calls' := calls ++ [(req, answer)] in
        match (response <- answer ;; items <- page_items response ;;
               Ok (response, items)) with
        | Raise _ => Some (all_videos, c', calls')
        | Ok (response, items) =>
            let all_videos' := all_videos ++ items in
            match py_get response "nextPageToken" PNone with
            | Raise _ => Some (all_videos', c', calls')
            | Ok token =>
                if negb (truthy token) then Some (all_videos', c', calls')
                else search_loop fuel' q ord after before max_total_results
                       c' all_videos' token calls'
            end
        end
    end
  else Some (all_videos, c, calls).

(** [search_videos_with_keywords]: the videos returned, the handler with
    [search_results] set, the client afterwards and the calls issued. *)
Definition search_videos_with_keywords (fuel : nat) (self : handler) (c : C)
    (keywords : list string) (max_total_results : Z) (ord : string)
    (after before : option string)
    : option (result (list pyval) * handler * C * list search_call) :=
  let q := join " " keywords in
  match search_loop fuel q ord after before max_total_results c [] PNone [] with
  | None => None
  | Some (all_videos, c', calls) =>
      Some (Ok all_videos,
            {| search_results := all_videos; video_details := video_details self |},
            c', calls)
  end.

(** [[item['id']['videoId'] for item in batch]]. *)
Definition video_id_of (item : pyval) : result pyval :=
  i <- py_subscript item "id" ;; py_subscript i "videoId".

(** What a batch adds to [all_details]: nothing when the request or the
    handling of its response raised. *)
Definition batch_details (answer : result pyval) : list pyval :=
  match (response <- answer ;; page_items response) with
  | Ok details => details
  | Raise _ => []
  end.

(** The [for] loop of [fetch_video_statistics] over the batch offsets; an
    exception raised while collecting the identifiers is not caught. *)
Fixpoint fetch_batches (video_items : list pyval) (offsets : list nat) (c : C)
    (all_details : list pyval) (calls : list details_call)
    : result (list pyval) * C * list details_call :=
  match offsets with
  | [] => (Ok all_details, c, calls)
  | i :: rest =>
      let batch := slice video_items i (i + 50) in
      match mapM video_id_of batch with
      | Raise e => (Raise e, c, calls)
      | Ok video_ids =>
          let (answer, c') := client_get_video_details c video_ids in
          fetch_batches video_items rest c'
            (all_details ++ batch_details answer)
            (calls ++ [(video_ids, answer)])
      end
  end.

(** [fetch_video_statistics]. *)
Definition fetch_video_statistics (self : handler) (c : C)
    (video_items : option (list pyval))
    : result (list pyval) * handler * C * list details_call :=
  let video_items :=
    match video_items with
    | None => search_results self
    | Some l => l
    end in
  match video_items with
  | [] => (Ok [], self, c, [])
  | _ =>
      match fetch_batches video_items
              (range_from0 (List.length video_items) 50) c [] [] with
      | (Ok all_details, c', calls) =>
          (Ok all_details,
           {| search_results := search_results self; video_details := all_details |},
           c', calls)
      | (Raise e, c', calls) => (Raise e, self, c', calls)
      end
  end.

(** [search_and_get_details]: the search with its default order, then the
    details of what it found. *)
Definition search_and_get_details (fuel : nat) (self : handler) (c : C)
    (keywords : list string) (max_results : Z) (after before : option string)
    : option (result (list pyval) * handler * C
              * list search_call * list details_call) :=
  match search_videos_with_keywords fuel self c keywords max_results "viewCount"
          after before with
  | None => None
  | Some (Raise e, self1, c1, searches) => Some (Raise e, self1, c1, searches, [])
  | Some (Ok search_results, self1, c1, searches) =>
      let '(detailed_results, self2, c2, lookups) :=
        fetch_video_statistics self1 c1 (Some search_results) in
      Some (detailed_results, self2, c2, searches, lookups)
  end.

End Client.

End SearchHandler.

(* ================================================================== *)
(** ** storage_handler.py *)

Module StorageHandler.
Import Py.

(** [d[k] = v] and [d.pop(k, None)] on a dict. *)
Fixpoint dict_set (k : string) (v : pyval) (d : dict) : dict :=
  match d with
  | [] => [(k, v)]
  | (k', v') :: d' =>
      if String.eqb k k' then (k, v) :: d' else (k', v') :: dict_set k v d'
  end.

Definition dict_pop (k : string) (d : dict) : dict :=
  filter (fun kv => negb (String.eqb k (fst kv))) d.

Fixpoint ends_with_slash (s : string) : bool :=
  match s with
  | EmptyString => false
  | String c EmptyString => Ascii.eqb c "/"
  | String _ s' => ends_with_slash s'
  end.

(** [os.path.join(a, b)] with the POSIX separator. *)
Definition path_join (a b : string) : string :=
  if prefixb "/" b then b
  else if String.eqb a "" || ends_with_slash a then (a ++ b)%string
  else (a ++ "/" ++ b)%string.

(** [_generate_filename]; [stamp] is the clock reading
    [datetime.now().strftime('%Y%m%d_%H%M%S')]. *)
Definition _generate_filename (output_dir stamp base_name extension : string) : string :=
  path_join output_dir (base_name ++ "_" ++ stamp ++ "." ++ extension)%string.

(** What a CSV writer is handed: the path opened, the header and one row of
    cells per record.  How the writer spells a cell is not modelled. *)
Record csv_file : Type := {
  csv_path : string;
  csv_header : list string;
  csv_rows : list (list pyval)
}.

(** The columns of [save_to_csv], in the title-search variant and in the
    general one. *)
Definition csv_columns : list string :=
  [ "video_id"; "title"; "channel"; "published_at";
    "view_count"; "like_count"; "comment_count";
    "duration"; "duration_seconds"; "is_short"; "video_type";
    "tags"; "thumbnail_url"; "description"; "url" ].

Definition csv_columns_general : list string :=
  [ "video_id"; "title"; "channel"; "published_at";
    "view_count"; "like_count"; "comment_count";
    "duration"; "tags"; "url" ].

(** [save_to_csv]: the path returned and the file written, if any. *)
Definition save_to_csv_with (columns : list string) (output_dir stamp : string)
    (videos : list dict) (filename_base : string) : string * option csv_file :=
  match videos with
  | [] => ("", None)
  | _ =>
      let filepath := _generate_filename output_dir stamp filename_base "csv" in
      (filepath,
       Some {| csv_path := filepath;
               csv_header := columns;
               csv_rows :=
                 map (fun video => map (fun col => dget video col (PStr "")) columns)
                   videos |})
  end.

Definition save_to_csv := save_to_csv_with csv_columns.
Definition save_to_csv_general := save_to_csv_with csv_columns_general.

(** The copy of a record that [save_to_json] writes in the title-search
    variant: the thumbnail object moves under [thumbnail]. *)
Definition json_video (video : dict) : dict :=
  match assoc "thumbnail_object" video with
  | Some thumbnail =>
      dict_pop "thumbnail_object"
        (dict_pop "thumbnail_url" (dict_set "thumbnail" thumbnail video))
  | None => video
  end.

(** [save_to_json]: the path returned and, if a file is written, its path
    and the object dumped into it; [now] is the clock reading
    [datetime.now().isoformat()] taken after the path was made. *)
Definition save_to_json (output_dir stamp now : string) (videos : list dict)
    (filename_base : string) : string * option (string * pyval) :=
  match videos with
  | [] => ("", None)
  | _ =>
      let filepath := _generate_filename output_dir stamp filename_base "json" in
      let videos_with_full_data := map json_video videos in
      (filepath,
       Some (filepath,
             PDict [ ("timestamp", PStr now);
                     ("video_count", PInt (Z.of_nat (List.length videos_with_full_data)));
                     ("videos", PList (map PDict videos_with_full_data)) ]))
  end.

(** The general variant dumps the records as they are. *)
Definition save_to_json_general (output_dir stamp now : string) (videos : list dict)
    (filename_base : string) : string * option (string * pyval) :=
  match videos with
  | [] => ("", None)
  | _ =>
      let filepath := _generate_filename output_dir stamp filename_base "json" in
      (filepath,
       Some (filepath,
             PDict [ ("timestamp", PStr now);
                     ("video_count", PInt (Z.of_nat (List.length videos)));
                     ("videos", PList (map PDict videos)) ]))
  end.

End StorageHandler.


(* ================================================================== *)
(** ** Vocabulary of the statements *)

Module Spec.
Import Py DataProcessor SearchHandler StorageHandler.

Fixpoint all_digits (s : string) : bool :=
  match s with
  | EmptyString => true
  | String c s' => is_digit c && all_digits s'
  end.








(** The title of a record as the keyword filter reads it. *)
Definition title_of (v : dict) : pyval := dget v "title" (PStr "").

Definition has_text_title (v : dict) : Prop :=
  exists t, title_of v = PStr t.

Definition text_of (v : pyval) : string :=
  match v with
  | PStr t => t
  | _ => ""
  end.

(** Both sides are lowercased unless the match is case sensitive. *)
Definition fold_case (case_sensitive : bool) (s : string) : string :=
  if case_sensitive then s else lower s.

(** [k] occurs in [t] as a substring. *)
Definition occurs_in (k t : string) : Prop :=
  exists pre post, t = (pre ++ k ++ post)%string.

(** At least one keyword occurs in the title. *)
Definition title_matches (case_sensitive : bool) (keywords : list string) (v : dict) : bool :=
  existsb (fun k => str_in (fold_case case_sensitive k)
                      (fold_case case_sensitive (text_of (title_of v)))) keywords.

(** The key [sort_videos] sorts by: the field, or 0 where it is missing. *)
Definition sort_key (sort_by : string) (v : dict) : pyval := dget v sort_by (PInt 0).

(** [b]'s key is not smaller than [a]'s. *)
Definition not_below (key : dict -> pyval) (a b : dict) : Prop :=
  py_lt (key b) (key a) = Ok false.

(** What holds between a record and every later one of a sorted output. *)
Definition in_order (sort_by : string) (descending : bool) (a b : dict) : Prop :=
  if descending then not_below (sort_key sort_by) b a
  else not_below (sort_key sort_by) a b.

Definition same_key (sort_by : string) (k : pyval) (v : dict) : bool :=
  py_eq (sort_key sort_by v) k.

Definition as_text (v : pyval) : option string :=
  match v with
  | PStr s => Some s
  | _ => None
  end.

(** All keys are integers (bools included), or all keys are text. *)
Definition int_keys (sort_by : string) (videos : list dict) : Prop :=
  Forall (fun v => as_int (sort_key sort_by v) <> None) videos.

Definition text_keys (sort_by : string) (videos : list dict) : Prop :=
  Forall (fun v => as_text (sort_key sort_by v) <> None) videos.








(** What [extract_video_info] makes of an item without sections. *)
Definition bare_record (id : pyval) : dict :=
  [ ("video_id", id);
    ("title", PStr "");
    ("channel", PStr "");
    ("channel_id", PStr "");
    ("published_at", PStr "");
    ("description", PStr "");
    ("description_short", PStr "");
    ("view_count", PInt 0);
    ("like_count", PInt 0);
    ("comment_count", PInt 0);
    ("duration", PStr "0:00");
    ("duration_seconds", PInt 0);
    ("is_short", PBool false);
    ("video_type", PStr "Unknown");
    ("tags", PStr "No tags");
    ("tags_list", PList []);
    ("thumbnail_url", PStr "No thumbnail");
    ("thumbnail_object", PDict [("url", PStr ""); ("width", PInt 0); ("height", PInt 0)]);
    ("url", PStr ("https://www.youtube.com/watch?v=" ++ py_str id)%string) ].


(** The count the statistics section of a raw item gives for [k], 0 when the
    section or the count is missing. *)
Definition raw_count (video : dict) (k : string) : pyval :=
  match dget video "statistics" (PDict []) with
  | PDict st => dget st k (PInt 0)
  | _ => PNone
  end.

(** The view filter's test on a record whose view count is an integer. *)
Definition passes_views (min_views : Z) (v : dict) : bool :=
  match as_int (dget v "view_count" (PInt 0)) with
  | Some x => min_views <=? x
  | None => false
  end.

(** Keywords count as supplied when the list is there and not empty. *)
Definition keywords_supplied (filter_keywords : option (list string)) : Prop :=
  exists k ks, filter_keywords = Some (k :: ks).

(** The keyword stage of the pipeline: the title filter (case insensitive)
    when keywords were supplied, nothing otherwise. *)
Definition keyword_gate (filter_keywords : option (list string)) (v : dict) : bool :=
  match filter_keywords with
  | Some (k :: ks) => title_matches false (k :: ks) v
  | _ => true
  end.

(** A raw item that has an identifier and a view count and nothing else. *)
Definition stub_with_views (id views : string) : dict :=
  [ ("id", PStr id); ("statistics", PDict [("viewCount", PStr views)]) ].

(** *** Records and their fields *)

(** A record the normaliser produced. *)
Definition is_record (r : dict) : Prop :=
  exists video, extract_video_info video = Ok r.

(** The integer a record holds under [k], 0 when the field is missing or no
    integer. *)
Definition int_field (k : string) (v : dict) : Z :=
  match as_int (dget v k (PInt 0)) with
  | Some x => x
  | None => 0
  end.

Definition in_window (lo : Z) (hi : option Z) (v : dict) : bool :=
  (lo <=? int_field "duration_seconds" v) &&
  match hi with
  | Some h => int_field "duration_seconds" v <=? h
  | None => true
  end.


(** The types that can be asked for on the command line: all but Unknown. *)
Definition selectable_types : list string :=
  ["Short"; "Short Video"; "Medium Video"; "Long Video"; "Very Long Video"].

(** The fields the two variants of the normaliser have in common. *)
Definition shared_fields : list string :=
  [ "video_id"; "title"; "channel"; "channel_id"; "published_at";
    "view_count"; "like_count"; "comment_count"; "tags"; "tags_list"; "url" ].

(** The duration token of a raw item, with the defaults of the normaliser. *)
Definition raw_duration (video : dict) : pyval :=
  match dget video "contentDetails" (PDict []) with
  | PDict cd => dget cd "duration" (PStr "N/A")
  | _ => PNone
  end.

(** *** Calls to the client *)

(** The items a call added to the accumulated list: those of its response,
    none when the request or the handling of the response raised. *)
Definition answer_items (answer : result pyval) : list pyval :=
  match (response <- answer ;; page_items response) with
  | Ok items => items
  | Raise _ => []
  end.

(** The call went through: a response came back and its items were taken. *)
Definition page_ok (answer : result pyval) : Prop :=
  exists response items, answer = Ok response /\ page_items response = Ok items.

(** The continuation token of an answer, [None] where there is none. *)
Definition next_token (answer : result pyval) : pyval :=
  match answer with
  | Ok (PDict d) => dget d "nextPageToken" PNone
  | _ => PNone
  end.

(** Everything the calls gathered, in call order. *)
Definition gathered {Q : Type} (calls : list (Q * result pyval)) : list pyval :=
  List.concat (map (fun call => answer_items (snd call)) calls).

Section Calls.
Variable C : Type.
Variable client_search_videos : C -> search_request -> result pyval * C.
Variable client_get_video_details : C -> list pyval -> result pyval * C.

(** The calls of one search, from a point where [acc] is accumulated and
    [tok] is the token in hand: each call is issued below the target, asks
    for [min(50, target - accumulated)] items under the token of the call
    before it, and is answered by the client in the state the previous
    call left; a call that is followed by another one went through and
    returned a token. *)
Fixpoint search_chain (q ord : string) (after before : option string) (target : Z)
    (c : C) (acc : list pyval) (tok : pyval) (calls : list search_call) (c_end : C)
    : Prop :=
  match calls with
  | [] => c_end = c
  | (req, answer) :: rest =>
      Z.of_nat (List.length acc) < target /\
      req = {| query := q;
               max_results := Z.min 50 (target - Z.of_nat (List.length acc));
               order := ord;
               page_token := tok;
               published_after := after;
               published_before := before |} /\
      answer = fst (client_search_videos c req) /\
      (rest <> [] -> page_ok answer /\ truthy (next_token answer) = true) /\
      search_chain q ord after before target
        (snd (client_search_videos c req)) (acc ++ answer_items answer)
        (next_token answer) rest c_end
  end.

(** Why the search stopped after [calls] with [out] accumulated. *)
Definition stop_reason (target : Z) (out : list pyval) (calls : list search_call) : Prop :=
  target <= Z.of_nat (List.length out) \/
  exists req answer,
    last calls (req, answer) = (req, answer) /\ calls <> [] /\
    (~ page_ok answer \/ truthy (next_token answer) = false).

(** A page that announces a next page is not empty. *)
Definition productive : Prop :=
  forall c req response items,
    fst (client_search_videos c req) = Ok response ->
    page_items response = Ok items ->
    truthy (next_token (Ok response)) = true ->
    items <> [].

(** The client never returns more items than it was asked for. *)
Definition honours_page_size : Prop :=
  forall c req response items,
    fst (client_search_videos c req) = Ok response ->
    page_items response = Ok items ->
    Z.of_nat (List.length items) <= max_results req.

(** The client always has a full page and a further one to announce. *)
Definition full_pages : Prop :=
  forall c req,
    exists response items,
      fst (client_search_videos c req) = Ok response /\
      page_items response = Ok items /\
      truthy (next_token (Ok response)) = true /\
      (1 <= max_results req <= 50 -> Z.of_nat (List.length items) = max_results req).

(** The answers are the client's, one state after the other. *)
Fixpoint details_chain (c : C) (calls : list details_call) (c_end : C) : Prop :=
  match calls with
  | [] => c_end = c
  | (ids, answer) :: rest =>
      answer = fst (client_get_video_details c ids) /\
      details_chain (snd (client_get_video_details c ids)) rest c_end
  end.
End Calls.

(** *** Reading a duration display back *)

Fixpoint split_colon (s cur : string) : list string :=
  match s with
  | EmptyString => [cur]
  | String c s' =>
      if Ascii.eqb c ":" then cur :: split_colon s' ""
      else split_colon s' (cur ++ String c "")%string
  end.

(** The seconds a display [M:SS] or [H:MM:SS] stands for. *)
Definition read_display (t : string) : option Z :=
  match map int_of_str (split_colon t "") with
  | [Some m; Some s] => Some (m * 60 + s)
  | [Some h; Some m; Some s] => Some (h * 3600 + m * 60 + s)
  | _ => None
  end.

(** The batches of [fetch_video_statistics]: consecutive slices of 50. *)
Definition batches {A : Type} (l : list A) : list (list A) :=
  map (fun i => slice l i (i + 50)) (range_from0 (List.length l) 50).

(** A scripted client for the scenarios: the state counts the calls; the
    script gives the answer of each call, and [ClientError] past its end. *)
Definition scripted {Q : Type} (script : list (result pyval)) (n : nat) (_ : Q)
    : result pyval * nat :=
  (nth n script (Raise ClientError), S n).

Definition stub (n : nat) : pyval :=
  PDict [("id", PDict [("videoId", PStr (str_of_int (Z.of_nat n)))])].

Definition stubs (first count : nat) : list pyval := map stub (seq first count).

Definition page (items : list pyval) (token : option string) : result pyval :=
  Ok (PDict (("items", PList items)
             :: match token with
                | Some t => [("nextPageToken", PStr t)]
                | None => []
                end)).

(** A client that always returns as many stubs as it is asked for, and a
    token. *)
Definition generous (n : nat) (req : search_request) : result pyval * nat :=
  (page (stubs 0 (Z.to_nat (max_results req))) (Some "T"), S n).

Definition fresh_handler : handler :=
  {| search_results := []; video_details := [] |}.

(** The scenario of the specification: 50 stubs and a token, then 30 stubs
    and no token; a third page is scripted to show that it is not asked
    for. *)
Definition two_pages : list (result pyval) :=
  [ page (stubs 0 50) (Some "T1"); page (stubs 50 30) None;
    page (stubs 80 50) (Some "T3") ].

(** The second page fails. *)
Definition failing_second_page : list (result pyval) :=
  [ page (stubs 0 50) (Some "T1"); Raise ClientError;
    page (stubs 50 50) (Some "T3") ].

(** The details client of the scenario: the second batch fails. *)
Definition second_batch_fails : list (result pyval) :=
  [ page (stubs 0 50) None; Raise ClientError; page (stubs 100 20) None ].

End Spec.

(* ================================================================== *)
(** ** Facts about the builtins *)

Module PyFacts.
Import Py Spec.

Lemma append_nil_r (s : string) : (s ++ "")%string = s.
Proof. induction s; simpl; congruence. Qed.

Lemma append_assoc (a b c : string) : ((a ++ b) ++ c)%string = (a ++ b ++ c)%string.
Proof. induction a; simpl; congruence. Qed.

Lemma all_digits_uint (d : Decimal.uint) : all_digits (NilEmpty.string_of_uint d) = true.
Proof. induction d; simpl; auto. Qed.

Lemma uint_nonempty (d : Decimal.uint) :
  d <> Decimal.Nil -> NilEmpty.string_of_uint d <> "".
Proof. destruct d; simpl; congruence. Qed.

Lemma parse_digits_uint_acc (d : Decimal.uint) (p : positive) :
  parse_digits (NilEmpty.string_of_uint d) (Z.pos p) true
  = Some (Z.pos (Pos.of_uint_acc d p)).
Proof.
  revert p; induction d; intro p; try reflexivity;
    cbn [NilEmpty.string_of_uint parse_digits Pos.of_uint_acc];
    change (is_digit _) with true; cbv iota;
    rewrite <- IHd; f_equal;
    match goal with
    | |- context [digit_val ?c] =>
        let v := eval vm_compute in (digit_val c) in change (digit_val c) with v
    end; lia.
Qed.

Lemma parse_digits_uint (d : Decimal.uint) :
  parse_digits (NilEmpty.string_of_uint d) 0 true = Some (Z.of_uint d).
Proof.
  induction d; try reflexivity; try exact IHd;
    cbn [NilEmpty.string_of_uint parse_digits];
    change (is_digit _) with true; cbv iota;
    unfold Z.of_uint; cbn [Pos.of_uint Z.of_N];
    rewrite <- parse_digits_uint_acc; f_equal.
Qed.

Lemma parse_digits_uint_start (d : Decimal.uint) :
  d <> Decimal.Nil ->
  parse_digits (NilEmpty.string_of_uint d) 0 false = Some (Z.of_uint d).
Proof.
  intro H. rewrite <- parse_digits_uint.
  destruct d; try congruence; reflexivity.
Qed.

Lemma digit_not_space (c : ascii) : is_digit c = true -> is_space c = false.
Proof.
  unfold is_digit, is_space. intro H.
  apply andb_true_iff in H as [H1 H2].
  apply N.leb_le in H1, H2.
  repeat rewrite orb_false_iff; repeat split.
  - apply andb_false_iff; right. apply N.leb_gt. lia.
  - apply N.eqb_neq; lia.
  - apply N.eqb_neq; lia.
  - apply N.eqb_neq; lia.
Qed.

Lemma rstrip_digits (s : string) : all_digits s = true -> rstrip s = s.
Proof.
  induction s as [|c s IH]; simpl; [reflexivity|].
  intro H. apply andb_true_iff in H as [Hc Hs].
  rewrite (IH Hs). rewrite (digit_not_space c Hc). destruct s; reflexivity.
Qed.

Lemma lstrip_digits (s : string) : all_digits s = true -> lstrip s = s.
Proof.
  destruct s as [|c s]; simpl; [reflexivity|].
  intro H. apply andb_true_iff in H as [Hc _].
  now rewrite (digit_not_space c Hc).
Qed.

Lemma digit_cases (c : ascii) :
  is_digit c = true ->
  c = "0"%char \/ c = "1"%char \/ c = "2"%char \/ c = "3"%char \/ c = "4"%char \/
  c = "5"%char \/ c = "6"%char \/ c = "7"%char \/ c = "8"%char \/ c = "9"%char.
Proof.
  destruct c as [[] [] [] [] [] [] [] []]; intro H; try discriminate H; tauto.
Qed.

Lemma int_of_str_digits (s : string) :
  all_digits s = true -> int_of_str s = parse_digits s 0 false.
Proof.
  intro H. unfold int_of_str. rewrite (lstrip_digits s H), (rstrip_digits s H).
  destruct s as [|c s]; [reflexivity|].
  simpl in H. apply andb_true_iff in H as [Hc _].
  destruct (digit_cases c Hc) as [E|[E|[E|[E|[E|[E|[E|[E|[E|E]]]]]]]]]; subst c; reflexivity.
Qed.

(** [int(str(n))] gives [n] back for a non-negative [n]. *)
Lemma int_of_str_of_int (n : Z) : 0 <= n -> int_of_str (str_of_int n) = Some n.
Proof.
  intro Hn. unfold str_of_int.
  assert (E : exists d, Z.to_int n = Decimal.Pos d /\ d <> Decimal.Nil).
  { destruct n as [|p|p]; simpl.
    - eexists; split; [reflexivity|discriminate].
    - eexists; split; [reflexivity|apply DecimalPos.Unsigned.to_uint_nonnil].
    - lia. }
  destruct E as (d & E & Hd).
  pose proof (DecimalZ.of_to n) as R. rewrite E in *. simpl in *.
  rewrite int_of_str_digits by apply all_digits_uint.
  rewrite parse_digits_uint_start by assumption. now rewrite R.
Qed.

Lemma str_of_int_digits (n : Z) :
  0 <= n -> all_digits (str_of_int n) = true /\ str_of_int n <> "".
Proof.
  intro Hn. unfold str_of_int. destruct n as [|p|p]; simpl; try lia.
  - split; [reflexivity|discriminate].
  - split; [apply all_digits_uint|].
    apply uint_nonempty, DecimalPos.Unsigned.to_uint_nonnil.
Qed.

(** *** The digit-run search *)






(** *** [replace] *)




End PyFacts.

(* ================================================================== *)
(** ** The duration codec *)

Module DurationCodec.
Import Py DataProcessor Spec PyFacts.




Lemma duration_component_end (X : ascii) : duration_component X "" = Ok 0.
Proof. reflexivity. Qed.






Lemma span_digits_fst (s : string) : all_digits (fst (span_digits s)) = true.
Proof.
  induction s as [|c s IH]; [reflexivity|]. simpl.
  destruct (is_digit c) eqn:E; [|reflexivity].
  destruct (span_digits s). simpl in *. now rewrite E.
Qed.

Lemma re_search_digits_some (X : ascii) (s g : string) :
  re_search_digits X s = Some g -> all_digits g = true /\ g <> "".
Proof.
  induction s as [|c s IH]; [discriminate|].
  change (re_search_digits X (String c s))
    with (match span_digits (String c s) with
          | (String d ds', String y _) =>
              if Ascii.eqb y X then Some (String d ds') else re_search_digits X s
          | _ => re_search_digits X s
          end).
  pose proof (span_digits_fst (String c s)) as D.
  destruct (span_digits (String c s)) as [[|d ds] [|y r]]; auto.
  destruct (Ascii.eqb y X); auto.
  intro E. injection E as <-. split; [exact D|discriminate].
Qed.

Lemma digit_val_nonneg (c : ascii) : is_digit c = true -> 0 <= digit_val c.
Proof.
  unfold is_digit, digit_val. intro H.
  apply andb_true_iff in H as [H _]. apply N.leb_le in H. lia.
Qed.

Lemma parse_digits_total (g : string) (acc : Z) :
  all_digits g = true -> 0 <= acc ->
  exists z, parse_digits g acc true = Some z /\ 0 <= z.
Proof.
  revert acc. induction g as [|c g IH]; intros acc Hd Ha.
  - exists acc. now split.
  - simpl in *. apply andb_true_iff in Hd as [Hc Hg]. rewrite Hc.
    apply IH; [assumption|]. pose proof (digit_val_nonneg c Hc). lia.
Qed.

Lemma py_int_digits (g : string) :
  all_digits g = true -> g <> "" -> exists z, py_int (PStr g) = Ok z /\ 0 <= z.
Proof.
  intros Hd Hne. unfold py_int. rewrite int_of_str_digits by assumption.
  destruct g as [|c g]; [congruence|].
  cbn [all_digits] in Hd. apply andb_true_iff in Hd as [Hc Hg].
  cbn [parse_digits]. rewrite Hc.
  destruct (parse_digits_total g (0 * 10 + digit_val c) Hg) as (z & E & Hz).
  { pose proof (digit_val_nonneg c Hc). lia. }
  exists z. now rewrite E.
Qed.

(** A component search never raises, whatever the string. *)
Lemma duration_component_ok (X : ascii) (s : string) :
  exists z, duration_component X s = Ok z /\ 0 <= z.
Proof.
  unfold duration_component.
  destruct (re_search_digits X s) as [g|] eqn:E.
  - destruct (re_search_digits_some X s g E). now apply py_int_digits.
  - exists 0. split; [reflexivity|lia].
Qed.

Lemma parse_duration_total (s : string) :
  exists z, parse_duration (PStr s) = Ok z /\ 0 <= z.
Proof.
  unfold parse_duration.
  destruct (negb (truthy (PStr s)) || py_eq (PStr s) (PStr "N/A")).
  - exists 0. split; [reflexivity|lia].
  - cbv zeta.
    destruct (duration_component_ok "H" (str_replace "PT" "" s)) as (h & -> & Hh).
    destruct (duration_component_ok "M" (str_replace "PT" "" s)) as (m & -> & Hm).
    destruct (duration_component_ok "S" (str_replace "PT" "" s)) as (x & -> & Hx).
    simpl. eexists; split; [reflexivity|lia].
Qed.





End DurationCodec.

(* ================================================================== *)
(** ** Classification by duration *)

Module Classification.
Import Py DataProcessor.

(** C4. For every non-negative number of seconds: 0 is Unknown, (0,60] is
    Short, (60,240] is Short Video, (240,600] is Medium Video, (600,1200] is
    Long Video and anything longer is Very Long Video, each upper boundary
    belonging to its band. *)
Theorem get_video_type_bands (s : Z) :
  0 <= s ->
  (s = 0 -> get_video_type s = "Unknown") /\
  (0 < s <= 60 -> get_video_type s = "Short") /\
  (60 < s <= 240 -> get_video_type s = "Short Video") /\
  (240 < s <= 600 -> get_video_type s = "Medium Video") /\
  (600 < s <= 1200 -> get_video_type s = "Long Video") /\
  (1200 < s -> get_video_type s = "Very Long Video").
Proof.
  intro Hs. unfold get_video_type.
  repeat split; intro H;
    repeat match goal with
    | |- context [?a =? ?b] => destruct (Z.eqb_spec a b); try lia
    | |- context [?a <=? ?b] => destruct (Z.leb_spec a b); try lia
    end; reflexivity.
Qed.

Lemma get_video_type_bands_witness :
  0 <= 240 /\ 60 < 240 <= 240 /\ get_video_type 240 = "Short Video".
Proof.
  split; [lia|]. split; [lia|].
  destruct (get_video_type_bands 240 ltac:(lia)) as (_ & _ & H & _).
  apply H; lia.
Defined.

End Classification.

(* ================================================================== *)
(** ** The keyword filter *)

Module KeywordFilter.
Import Py DataProcessor Spec PyFacts.

Lemma prefixb_spec (p s : string) :
  prefixb p s = true <-> exists post, s = (p ++ post)%string.
Proof.
  revert s. induction p as [|a p IH]; intro s; simpl.
  - split; [exists s; reflexivity|reflexivity].
  - destruct s as [|b s].
    + split; [discriminate|]. intros [post E]. discriminate.
    + rewrite andb_true_iff, IH. split.
      * intros [E [post ->]]. apply Ascii.eqb_eq in E. subst. now exists post.
      * intros [post E]. injection E as -> ->. split; [apply Ascii.eqb_refl|now exists post].
Qed.

Lemma str_in_spec (k s : string) : str_in k s = true <-> occurs_in k s.
Proof.
  unfold occurs_in. induction s as [|c s IH]; simpl.
  - rewrite orb_false_r, prefixb_spec. split.
    + intros [post E]. exists "", post. exact E.
    + intros (pre & post & E). destruct pre; [now exists post|discriminate].
  - rewrite orb_true_iff, prefixb_spec, IH. split.
    + intros [[post E]|(pre & post & E)].
      * exists "", post. exact E.
      * exists (String c pre), post. simpl. now rewrite E.
    + intros (pre & post & E). destruct pre as [|a pre].
      * left. now exists post.
      * right. simpl in E. injection E as _ E. now exists pre, post.
Qed.

Lemma lower_char_idem (c : ascii) : lower_char (lower_char c) = lower_char c.
Proof. destruct c as [[] [] [] [] [] [] [] []]; reflexivity. Qed.

Lemma lower_idem (s : string) : lower (lower s) = lower s.
Proof. induction s; simpl; [reflexivity|]. now rewrite lower_char_idem, IHs. Qed.

Lemma map_lower_idem (l : list string) : map lower (map lower l) = map lower l.
Proof. rewrite map_map. apply map_ext. intro. apply lower_idem. Qed.

Lemma any_keyword_in_text (t : string) (keywords : list string) :
  any_keyword_in (PStr t) keywords = Ok (existsb (fun k => str_in k t) keywords).
Proof.
  induction keywords as [|k ks IH]; simpl; [reflexivity|].
  destruct (str_in k t); [reflexivity|exact IH].
Qed.

Lemma existsb_map {A B : Type} (f : A -> B) (p : B -> bool) (l : list A) :
  existsb p (map f l) = existsb (fun x => p (f x)) l.
Proof. induction l; simpl; congruence. Qed.

(** The loop appends, in input order, the records whose title matches. *)
Lemma filter_title_loop_sensitive (videos : list dict) (keywords : list string)
    (filtered : list dict) :
  Forall has_text_title videos ->
  filter_title_loop true videos keywords filtered
  = Ok (filtered ++ filter (title_matches true keywords) videos).
Proof.
  revert filtered. induction videos as [|v vs IH]; intros filtered H; simpl.
  - now rewrite app_nil_r.
  - inversion H as [|? ? [t Ht] Hvs]; subst.
    unfold title_of in Ht. rewrite Ht. simpl.
    rewrite any_keyword_in_text. simpl.
    rewrite (IH _ Hvs). unfold title_matches at 2, title_of. rewrite Ht. simpl.
    destruct (existsb _ keywords); [now rewrite <- app_assoc|reflexivity].
Qed.

Lemma filter_title_loop_insensitive (videos : list dict) (keywords kws : list string)
    (filtered : list dict) :
  Forall has_text_title videos ->
  map lower kws = map lower keywords ->
  filter_title_loop false videos kws filtered
  = Ok (filtered ++ filter (title_matches false keywords) videos).
Proof.
  revert filtered kws. induction videos as [|v vs IH]; intros filtered kws H E; simpl.
  - now rewrite app_nil_r.
  - inversion H as [|? ? [t Ht] Hvs]; subst.
    unfold title_of in Ht. rewrite Ht. simpl.
    rewrite any_keyword_in_text. simpl.
    rewrite (IH _ (map lower kws) Hvs) by (rewrite map_lower_idem; exact E).
    unfold title_matches at 2, title_of. rewrite Ht. simpl.
    rewrite E, existsb_map.
    destruct (existsb _ keywords); [now rewrite <- app_assoc|reflexivity].
Qed.

Lemma filter_by_keywords_in_title_filter (videos : list dict) (keywords : list string)
    (case_sensitive : bool) :
  Forall has_text_title videos ->
  filter_by_keywords_in_title videos keywords case_sensitive
  = Ok (filter (title_matches case_sensitive keywords) videos).
Proof.
  intro H. unfold filter_by_keywords_in_title. destruct case_sensitive.
  - now rewrite filter_title_loop_sensitive.
  - now rewrite (filter_title_loop_insensitive videos keywords keywords).
Qed.

Lemma title_matches_spec (case_sensitive : bool) (keywords : list string) (v : dict) :
  title_matches case_sensitive keywords v = true <->
  exists k, In k keywords /\
            occurs_in (fold_case case_sensitive k)
                      (fold_case case_sensitive (text_of (title_of v))).
Proof.
  unfold title_matches. rewrite existsb_exists.
  split; intros (k & Hk & H); exists k; (split; [exact Hk|]); now apply str_in_spec.
Qed.

(** C8. Over records whose title is text, and for a non-empty keyword list,
    the filter returns (in input order) exactly the records in whose title
    at least one keyword occurs as a substring, title and keywords being
    lowercased first when the match is not case sensitive; the three
    scenarios of the specification come out as stated. *)
Theorem filter_by_keywords_in_title_keeps_matches :
  (forall (videos : list dict) (keywords : list string) (case_sensitive : bool),
     keywords <> [] ->
     Forall has_text_title videos ->
     exists kept,
       filter_by_keywords_in_title videos keywords case_sensitive = Ok kept /\
       kept = filter (title_matches case_sensitive keywords) videos /\
       forall v, In v kept <->
                 In v videos /\
                 exists k, In k keywords /\
                   occurs_in (fold_case case_sensitive k)
                             (fold_case case_sensitive (text_of (title_of v)))) /\
  filter_by_keywords_in_title [[("title", PStr "Space Exploration Today")]] ["space"] false
    = Ok [[("title", PStr "Space Exploration Today")]] /\
  filter_by_keywords_in_title [[("title", PStr "Space Exploration Today")]] ["Space"] true
    = Ok [[("title", PStr "Space Exploration Today")]] /\
  filter_by_keywords_in_title [[("title", PStr "space exploration")]] ["Space"] true
    = Ok [].
Proof.
  split; [|repeat split].
  intros videos keywords cs _ H.
  exists (filter (title_matches cs keywords) videos).
  split; [now apply filter_by_keywords_in_title_filter|].
  split; [reflexivity|].
  intro v. rewrite filter_In, title_matches_spec. reflexivity.
Qed.

Lemma filter_by_keywords_in_title_keeps_matches_witness :
  exists kept,
    filter_by_keywords_in_title
      [[("title", PStr "Rocket Launch")]; [("title", PStr "Space Walk")]] ["space"] false
    = Ok kept /\
    kept = filter (title_matches false ["space"])
             [[("title", PStr "Rocket Launch")]; [("title", PStr "Space Walk")]].
Proof.
  destruct (proj1 filter_by_keywords_in_title_keeps_matches
              [[("title", PStr "Rocket Launch")]; [("title", PStr "Space Walk")]]
              ["space"] false)
    as (kept & E & K & _).
  - discriminate.
  - repeat constructor; eexists; reflexivity.
  - exists kept. split; assumption.
Defined.

(** C10. With an empty keyword list the keyword filter keeps nothing, while
    the batch pipeline takes the empty list as no keywords at all: it skips
    the keyword filter and returns the records that pass the view filter,
    sorted. *)
Theorem empty_keywords_two_entry_points :
  (forall (videos : list dict) (case_sensitive : bool),
     Forall has_text_title videos ->
     filter_by_keywords_in_title videos [] case_sensitive = Ok []) /\
  (forall (raw_videos : list dict) (min_views : Z),
     process_video_batch raw_videos min_views (Some [])
     = process_video_batch raw_videos min_views None /\
     process_video_batch raw_videos min_views (Some [])
     = (processed <- mapM extract_video_info raw_videos ;;
        passed <- filter_by_views processed min_views ;;
        sort_videos passed "view_count" true)) /\
  (exists kept,
     process_video_batch [[("id", PStr "a"); ("statistics", PDict [("viewCount", PStr "7")])]]
       5 (Some []) = Ok kept /\ List.length kept = 1%nat).
Proof.
  split; [|split].
  - intros videos cs H. rewrite filter_by_keywords_in_title_filter by assumption.
    f_equal. clear H. induction videos as [|v vs IH]; [reflexivity|exact IH].
  - intros raw min. split; reflexivity.
  - eexists. split; [vm_compute; reflexivity|reflexivity].
Qed.

Lemma empty_keywords_two_entry_points_witness :
  filter_by_keywords_in_title
    [[("title", PStr "Rocket Launch")]; [("title", PStr "Space Walk")]] [] false = Ok [].
Proof.
  apply (proj1 empty_keywords_two_entry_points).
  repeat constructor; eexists; reflexivity.
Defined.

End KeywordFilter.

(* ================================================================== *)
(** ** Sorting *)

Module SortFacts.
Import Py DataProcessor Spec.

Lemma StronglySorted_snoc {A : Type} (R : A -> A -> Prop) (l : list A) (x : A) :
  StronglySorted R l -> Forall (fun y => R y x) l -> StronglySorted R (l ++ [x]).
Proof.
  induction 1 as [|a l Hl IH Ha]; intro F; simpl.
  - repeat constructor.
  - inversion F; subst. constructor; [auto|].
    apply Forall_app. split; [assumption|]. repeat constructor. assumption.
Qed.

Lemma StronglySorted_rev {A : Type} (R : A -> A -> Prop) (l : list A) :
  StronglySorted R l -> StronglySorted (fun a b => R b a) (rev l).
Proof.
  induction 1 as [|a l Hl IH Ha]; simpl; [constructor|].
  apply StronglySorted_snoc; [assumption|].
  apply Forall_rev. assumption.
Qed.

Lemma filter_none {A : Type} (f : A -> bool) (l : list A) :
  (forall z, In z l -> f z = false) -> filter f l = [].
Proof.
  induction l as [|a l IH]; intro H; [reflexivity|].
  simpl. rewrite (H a (or_introl eq_refl)). apply IH. intros z Hz. apply H. now right.
Qed.

Section StableSort.
Context {A R : Type}.
Variable key : A -> pyval.
Variable rank : pyval -> option R.
Variable rltb reqb : R -> R -> bool.

Hypothesis rltb_trans :
  forall a b c, rltb a b = true -> rltb b c = true -> rltb a c = true.
Hypothesis rltb_irrefl : forall a, rltb a a = false.
Hypothesis reqb_eq : forall a b, reqb a b = true <-> a = b.
Hypothesis py_lt_rank :
  forall a b ra rb, rank a = Some ra -> rank b = Some rb -> py_lt a b = Ok (rltb ra rb).
Hypothesis py_eq_rank :
  forall a b ra, rank a = Some ra ->
    py_eq a b = match rank b with Some rb => reqb ra rb | None => false end.

Let ranked (x : A) : Prop := exists r, rank (key x) = Some r.
Let le (a b : A) : Prop := py_lt (key b) (key a) = Ok false.
Let same (k : pyval) (x : A) : bool := py_eq (key x) k.

Lemma same_rank (k : pyval) (x y : A) (rx ry : R) :
  rank (key x) = Some rx -> rank (key y) = Some ry ->
  same k x = true -> same k y = true -> rx = ry.
Proof.
  unfold same. intros Hx Hy Ex Ey.
  rewrite (py_eq_rank _ k rx Hx) in Ex. rewrite (py_eq_rank _ k ry Hy) in Ey.
  destruct (rank k) as [rk|]; [|discriminate].
  apply reqb_eq in Ex, Ey. congruence.
Qed.

Lemma insert_sorted_stable (x : A) (l : list A) :
  ranked x -> Forall ranked l -> StronglySorted le l ->
  exists l',
    insert_sorted key x l = Ok l' /\
    Permutation (x :: l) l' /\
    StronglySorted le l' /\
    forall k, filter (same k) l' = filter (same k) l ++ filter (same k) [x].
Proof.
  intros [rx Hx] Hl Hs. induction l as [|y l IH].
  - exists [x]. repeat split; auto; repeat constructor.
  - inversion Hl as [|? ? [ry Hy] Hl']; subst.
    apply StronglySorted_inv in Hs as [Hs Hy_le].
    cbn [insert_sorted]. rewrite (py_lt_rank _ _ rx ry Hx Hy). cbn [bind].
    destruct (rltb rx ry) eqn:Hlt.
    + exists (x :: y :: l).
      assert (Hxz : forall z, In z (y :: l) ->
                 exists rz, rank (key z) = Some rz /\ rltb rz rx = false /\ rz <> rx).
      { intros z Hz.
        assert (Hrz : ranked z) by (rewrite Forall_forall in Hl; auto).
        destruct Hrz as [rz Hrz]. exists rz. split; [exact Hrz|].
        assert (Hyz : rltb rz ry = false).
        { destruct Hz as [<-|Hz].
          - rewrite Hy in Hrz. injection Hrz as <-. apply rltb_irrefl.
          - rewrite Forall_forall in Hy_le. specialize (Hy_le z Hz).
            unfold le in Hy_le. rewrite (py_lt_rank _ _ rz ry Hrz Hy) in Hy_le.
            congruence. }
        split.
        - destruct (rltb rz rx) eqn:E; [|reflexivity].
          rewrite (rltb_trans _ _ _ E Hlt) in Hyz. discriminate.
        - intros ->. congruence. }
      split; [reflexivity|]. split; [apply Permutation_refl|]. split.
      * constructor; [constructor; assumption|].
        apply Forall_forall. intros z Hz.
        destruct (Hxz z Hz) as (rz & Hrz & Hn & _).
        unfold le. rewrite (py_lt_rank _ _ rz rx Hrz Hx). now rewrite Hn.
      * intro k. cbn [filter app] in *.
        destruct (same k x) eqn:Ex; [|now rewrite app_nil_r].
        assert (N : filter (same k) (y :: l) = []).
        { apply filter_none. intros z Hz.
          destruct (same k z) eqn:Ez; [|reflexivity].
          destruct (Hxz z Hz) as (rz & Hrz & _ & Hne).
          exfalso. apply Hne. symmetry. exact (same_rank k x z rx rz Hx Hrz Ex Ez). }
        cbn [filter] in N. rewrite N. reflexivity.
    + destruct (IH Hl' Hs) as (l' & E & P & S & F).
      rewrite E. cbn [bind]. exists (y :: l').
      split; [reflexivity|]. split.
      * apply perm_trans with (y :: x :: l); [apply perm_swap|now apply perm_skip].
      * split.
        -- constructor; [assumption|].
           apply (Permutation_Forall P). constructor; [|assumption].
           unfold le. rewrite (py_lt_rank _ _ rx ry Hx Hy). now rewrite Hlt.
        -- intro k. cbn [filter]. rewrite (F k).
           destruct (same k y); reflexivity.
Qed.

Lemma insert_sorted_ranked (x : A) (l l' : list A) :
  ranked x -> Forall ranked l -> Permutation (x :: l) l' -> Forall ranked l'.
Proof. intros Hx Hl P. apply (Permutation_Forall P). now constructor. Qed.

Lemma sort_into_stable (l acc : list A) :
  Forall ranked acc -> Forall ranked l -> StronglySorted le acc ->
  exists out,
    sort_into key acc l = Ok out /\
    Permutation (acc ++ l) out /\
    StronglySorted le out /\
    forall k, filter (same k) out = filter (same k) acc ++ filter (same k) l.
Proof.
  revert acc. induction l as [|x l IH]; intros acc Ha Hl Hs.
  - exists acc. rewrite app_nil_r. repeat split; auto.
    intro k. now rewrite app_nil_r.
  - inversion Hl as [|? ? Hx Hl']; subst.
    destruct (insert_sorted_stable x acc Hx Ha Hs) as (acc' & E & P & S & F).
    destruct (IH acc' (insert_sorted_ranked x acc acc' Hx Ha P) Hl' S)
      as (out & E' & P' & S' & F').
    exists out. cbn [sort_into]. rewrite E. cbn [bind].
    split; [exact E'|]. split.
    + apply perm_trans with (acc' ++ l); [|exact P'].
      apply perm_trans with ((x :: acc) ++ l).
      * apply Permutation_sym, Permutation_middle.
      * now apply Permutation_app_tail.
    + split; [exact S'|].
      intro k. rewrite (F' k), (F k), <- app_assoc.
      f_equal. cbn [filter app]. destruct (same k x); reflexivity.
Qed.

(** [sorted] over comparable keys: no exception, a permutation, in order,
    and equal keys left in input order. *)
Lemma sorted_stable (reverse : bool) (l : list A) :
  Forall ranked l ->
  exists out,
    sorted key reverse l = Ok out /\
    Permutation l out /\
    StronglySorted (fun a b => if reverse then le b a else le a b) out /\
    forall k, filter (same k) out = filter (same k) l.
Proof.
  intro Hl. unfold sorted. destruct reverse.
  - destruct (sort_into_stable (rev l) [] (Forall_nil _) (Forall_rev Hl)
                (SSorted_nil _)) as (out & E & P & S & F).
    exists (rev out). rewrite E. cbn [bind].
    split; [reflexivity|]. split.
    + apply perm_trans with (rev l); [apply Permutation_rev|].
      apply perm_trans with out; [exact P|apply Permutation_rev].
    + split; [now apply StronglySorted_rev in S|].
      intro k. rewrite filter_rev, (F k), filter_rev. cbn [filter app].
      apply rev_involutive.
  - destruct (sort_into_stable l [] (Forall_nil _) Hl (SSorted_nil _))
      as (out & E & P & S & F).
    exists out. repeat split; auto.
Qed.
End StableSort.

Lemma py_lt_int (a b : pyval) (ra rb : Z) :
  as_int a = Some ra -> as_int b = Some rb -> py_lt a b = Ok (ra <? rb).
Proof.
  destruct a; try discriminate; destruct b; try discriminate;
    simpl; intros Ha Hb; injection Ha as <-; injection Hb as <-; reflexivity.
Qed.

Lemma py_eq_int (a b : pyval) (ra : Z) :
  as_int a = Some ra ->
  py_eq a b = match as_int b with Some rb => ra =? rb | None => false end.
Proof.
  destruct a; try discriminate; simpl; intro Ha; injection Ha as <-;
    destruct b; reflexivity.
Qed.

Lemma py_lt_text (a b : pyval) (ra rb : string) :
  as_text a = Some ra -> as_text b = Some rb -> py_lt a b = Ok (String.ltb ra rb).
Proof.
  destruct a; try discriminate; destruct b; try discriminate;
    simpl; intros Ha Hb; injection Ha as <-; injection Hb as <-; reflexivity.
Qed.

Lemma py_eq_text (a b : pyval) (ra : string) :
  as_text a = Some ra ->
  py_eq a b = match as_text b with Some rb => String.eqb ra rb | None => false end.
Proof.
  destruct a; try discriminate; simpl; intro Ha; injection Ha as <-;
    destruct b; reflexivity.
Qed.

Lemma string_ltb_lt (a b : string) : String.ltb a b = true <-> String_as_OT.lt a b.
Proof.
  rewrite <- String_as_OT.cmp_lt. unfold String.ltb, String_as_OT.cmp.
  destruct (String.compare a b); split; congruence.
Qed.

Lemma string_ltb_trans (a b c : string) :
  String.ltb a b = true -> String.ltb b c = true -> String.ltb a c = true.
Proof.
  rewrite !string_ltb_lt. apply String_as_OT.lt_trans.
Qed.

Lemma string_ltb_irrefl (a : string) : String.ltb a a = false.
Proof.
  destruct (String.ltb a a) eqn:E; [|reflexivity].
  apply string_ltb_lt in E. apply String_as_OT.lt_not_eq in E.
  exfalso. apply E. reflexivity.
Qed.

Lemma filter_all {A : Type} (f : A -> bool) (l : list A) :
  (forall z, In z l -> f z = true) -> filter f l = l.
Proof.
  induction l as [|a l IH]; intro H; [reflexivity|].
  simpl. rewrite (H a (or_introl eq_refl)). f_equal. apply IH.
  intros z Hz. apply H. now right.
Qed.

Lemma some_of_not_none {T : Type} (o : option T) : o <> None -> exists r, o = Some r.
Proof. destruct o; [eauto|congruence]. Qed.

Lemma sort_videos_comparable (videos : list dict) (sort_by : string) (descending : bool) :
  int_keys sort_by videos \/ text_keys sort_by videos ->
  exists out,
    sort_videos videos sort_by descending = Ok out /\
    Permutation videos out /\
    StronglySorted (in_order sort_by descending) out /\
    forall k, filter (same_key sort_by k) out = filter (same_key sort_by k) videos.
Proof.
  intros [H|H].
  - apply (sorted_stable (sort_key sort_by) as_int Z.ltb Z.eqb).
    + intros a b c Hab Hbc. apply Z.ltb_lt in Hab, Hbc. apply Z.ltb_lt. lia.
    + apply Z.ltb_irrefl.
    + apply Z.eqb_eq.
    + apply py_lt_int.
    + apply py_eq_int.
    + eapply Forall_impl; [|exact H]. intros v Hv. now apply some_of_not_none.
  - apply (sorted_stable (sort_key sort_by) as_text String.ltb String.eqb).
    + apply string_ltb_trans.
    + apply string_ltb_irrefl.
    + apply String.eqb_eq.
    + apply py_lt_text.
    + apply py_eq_text.
    + eapply Forall_impl; [|exact H]. intros v Hv. now apply some_of_not_none.
Qed.

Lemma sort_videos_unknown_field (videos : list dict) (sort_by : string) (descending : bool) :
  Forall (fun v => assoc sort_by v = None) videos ->
  sort_videos videos sort_by descending = Ok videos.
Proof.
  intro H.
  assert (K : forall v, In v videos -> same_key sort_by (PInt 0) v = true).
  { intros v Hv. rewrite Forall_forall in H.
    unfold same_key, sort_key, dget. now rewrite (H v Hv). }
  destruct (sort_videos_comparable videos sort_by descending) as (out & E & P & _ & F).
  { left. apply Forall_forall. intros v Hv. specialize (K v Hv).
    unfold same_key in K. destruct (sort_key sort_by v); simpl in *; congruence. }
  rewrite E. f_equal.
  specialize (F (PInt 0)). rewrite (filter_all _ videos K) in F.
  rewrite filter_all in F; [exact F|].
  intros z Hz. apply K. apply (Permutation_in z (Permutation_sym P) Hz).
Qed.

(** C5 (as amended). [sort_videos] sorts by the named field, a record
    without the field taking the integer 0 as its key.  When the keys so
    obtained are all integers, or all text, it does not raise and returns a
    permutation of the input in key order (ascending, or descending) in
    which the records of equal key keep their input order.  A field name
    that no record has leaves the input as it is, and a record without a
    numeric field is placed as if the field were 0. *)
Theorem sort_videos_stable_on_comparable_keys :
  (forall (videos : list dict) (sort_by : string) (descending : bool),
     int_keys sort_by videos \/ text_keys sort_by videos ->
     exists out,
       sort_videos videos sort_by descending = Ok out /\
       Permutation videos out /\
       StronglySorted (in_order sort_by descending) out /\
       forall k, filter (same_key sort_by k) out = filter (same_key sort_by k) videos) /\
  (forall (videos : list dict) (sort_by : string) (descending : bool),
     Forall (fun v => assoc sort_by v = None) videos ->
     sort_videos videos sort_by descending = Ok videos) /\
  sort_videos
    [ [("view_count", PInt 5); ("title", PStr "a")];
      [("title", PStr "b")];
      [("view_count", PInt (-3)); ("title", PStr "c")];
      [("view_count", PInt 5); ("title", PStr "d")];
      [("title", PStr "e")] ] "view_count" true
  = Ok [ [("view_count", PInt 5); ("title", PStr "a")];
         [("view_count", PInt 5); ("title", PStr "d")];
         [("title", PStr "b")];
         [("title", PStr "e")];
         [("view_count", PInt (-3)); ("title", PStr "c")] ].
Proof.
  split; [exact sort_videos_comparable|].
  split; [exact sort_videos_unknown_field|].
  reflexivity.
Qed.

Lemma sort_videos_stable_on_comparable_keys_witness :
  exists out,
    sort_videos [ [("view_count", PInt 1)]; []; [("view_count", PInt 1); ("title", PStr "x")] ]
      "view_count" true = Ok out /\
    forall k,
      filter (same_key "view_count" k) out
      = filter (same_key "view_count" k)
          [ [("view_count", PInt 1)]; []; [("view_count", PInt 1); ("title", PStr "x")] ].
Proof.
  destruct (proj1 sort_videos_stable_on_comparable_keys
              [ [("view_count", PInt 1)]; []; [("view_count", PInt 1); ("title", PStr "x")] ]
              "view_count" true) as (out & E & _ & _ & F).
  - left. repeat constructor; discriminate.
  - exists out. split; assumption.
Defined.

(** Sorting by a text field raises as soon as one record lacks the field
    and another has it: the key 0 and a string are unorderable. *)
Lemma sort_videos_missing_text_field_raises :
  sort_videos [ [("title", PStr "b")]; [] ] "title" true = Raise TypeError.
Proof. reflexivity. Qed.

End SortFacts.

(* ================================================================== *)
(** ** The record normaliser *)

Module Normalizer.
Import Py DataProcessor Spec PyFacts DurationCodec.








Ltac invert_binds H :=
  repeat match type of H with
  | bind ?c _ = Ok _ =>
      let E := fresh "E" in
      destruct c eqn:E; cbn [bind] in H; [|discriminate H]
  end.

(** What a record says about counts and duration, whenever there is one. *)
Lemma extract_video_info_fields (video record : dict) :
  extract_video_info video = Ok record ->
  exists views likes comments seconds : Z,
    py_int (raw_count video "viewCount") = Ok views /\
    py_int (raw_count video "likeCount") = Ok likes /\
    py_int (raw_count video "commentCount") = Ok comments /\
    dget record "view_count" PNone = PInt views /\
    dget record "like_count" PNone = PInt likes /\
    dget record "comment_count" PNone = PInt comments /\
    dget record "duration_seconds" PNone = PInt seconds /\
    dget record "duration" PNone = PStr (format_duration seconds) /\
    dget record "is_short" PNone = PBool (is_youtube_short seconds) /\
    dget record "video_type" PNone = PStr (get_video_type seconds) /\
    dget record "video_id" PNone = dget video "id" PNone /\
    dget record "url" PNone
      = PStr ("https://www.youtube.com/watch?v=" ++ py_str (dget video "id" PNone))%string.
Proof.
  unfold extract_video_info, raw_count. intro H.
  destruct (dget video "statistics" (PDict [])) as [| | | | |st];
    try discriminate H.
  cbn [py_get bind] in H. invert_binds H.
  injection H as <-.
  do 4 eexists. repeat split; try reflexivity; eassumption.
Qed.







End Normalizer.

(* ================================================================== *)
(** ** The batch pipeline *)

Module Pipeline.
Import Py DataProcessor Spec PyFacts KeywordFilter SortFacts Normalizer.

Lemma mapM_Forall2 {A B : Type} (f : A -> result B) (l : list A) (rs : list B) :
  mapM f l = Ok rs -> Forall2 (fun x r => f x = Ok r) l rs.
Proof.
  revert rs. induction l as [|x l IH]; simpl; intros rs H.
  - injection H as <-. constructor.
  - destruct (f x) eqn:Ex; [|discriminate]. cbn [bind] in H.
    destruct (mapM f l) eqn:El; [|discriminate]. cbn [bind] in H.
    injection H as <-. constructor; auto.
Qed.

Lemma dget_found (d : dict) (k : string) (z : Z) (default : pyval) :
  dget d k PNone = PInt z -> dget d k default = PInt z.
Proof. unfold dget. destruct (assoc k d); [auto|discriminate]. Qed.

Lemma records_int_views (raw records : list dict) :
  Forall2 (fun v r => extract_video_info v = Ok r) raw records ->
  int_keys "view_count" records.
Proof.
  induction 1 as [|v r raw records H _ IH]; constructor; [|exact IH].
  destruct (extract_video_info_fields v r H)
    as (views & _ & _ & _ & _ & _ & _ & Hv & _).
  unfold sort_key. rewrite (dget_found _ _ _ _ Hv). discriminate.
Qed.

Lemma filter_by_views_filter (videos : list dict) (min_views : Z) :
  int_keys "view_count" videos ->
  filter_by_views videos min_views = Ok (filter (passes_views min_views) videos).
Proof.
  unfold filter_by_views.
  induction 1 as [|v videos Hv _ IH]; [reflexivity|].
  cbn [filterM filter]. rewrite IH. unfold passes_views, py_ge_int.
  unfold sort_key in Hv. destruct (as_int (dget v "view_count" (PInt 0))); [|congruence].
  reflexivity.
Qed.

Lemma Forall_filter {A : Type} (P : A -> Prop) (f : A -> bool) (l : list A) :
  Forall P l -> Forall P (filter f l).
Proof.
  intro H. apply Forall_forall. intros x Hx. apply filter_In in Hx as [Hx _].
  rewrite Forall_forall in H. auto.
Qed.

Lemma process_video_batch_raise (raw : list dict) (min_views : Z)
    (filter_keywords : option (list string)) (e : exn) :
  mapM extract_video_info raw = Raise e ->
  process_video_batch raw min_views filter_keywords = Raise e.
Proof. intro H. unfold process_video_batch. now rewrite H. Qed.

Lemma process_video_batch_stages (raw records : list dict) (min_views : Z)
    (filter_keywords : option (list string)) :
  mapM extract_video_info raw = Ok records ->
  (keywords_supplied filter_keywords -> Forall has_text_title records) ->
  exists out,
    process_video_batch raw min_views filter_keywords = Ok out /\
    Permutation
      (filter (keyword_gate filter_keywords) (filter (passes_views min_views) records)) out /\
    StronglySorted (in_order "view_count" true) out /\
    forall k,
      filter (same_key "view_count" k) out
      = filter (same_key "view_count" k)
          (filter (keyword_gate filter_keywords) (filter (passes_views min_views) records)).
Proof.
  intros E T. unfold process_video_batch. rewrite E. cbn [bind].
  pose proof (records_int_views raw records (mapM_Forall2 _ _ _ E)) as K.
  rewrite (filter_by_views_filter records min_views K). cbn [bind].
  set (passed := filter (passes_views min_views) records).
  assert (Kp : int_keys "view_count" passed) by (apply Forall_filter; exact K).
  assert (G : match filter_keywords with
              | Some (k :: ks) => filter_by_keywords_in_title passed (k :: ks) false
              | _ => Ok passed
              end = Ok (filter (keyword_gate filter_keywords) passed)).
  { destruct filter_keywords as [[|k ks]|]; cbn [keyword_gate].
    - f_equal. symmetry. apply filter_all. reflexivity.
    - apply filter_by_keywords_in_title_filter. apply Forall_filter.
      apply T. now exists k, ks.
    - f_equal. symmetry. apply filter_all. reflexivity. }
  rewrite G. cbn [bind].
  apply sort_videos_comparable. left. apply Forall_filter. exact Kp.
Qed.

(** C6. [process_video_batch] is the composition, in this order, of the
    normaliser over every raw item, the view filter, the keyword filter when
    keywords were supplied, and the sort.  An exception of the normaliser
    ends the batch.  Otherwise the records are passed through the view
    filter with the given threshold, through the keyword filter only when
    keywords were supplied, and sorted by view count, descending and stable.
    Raw items with view counts 5000, 20000 and 15000, threshold 10000 and no
    keywords give exactly the records of 20000 and 15000, in this order. *)
Theorem process_video_batch_fixed_order :
  (forall (raw : list dict) (min_views : Z),
     process_video_batch raw min_views None
     = (processed <- mapM extract_video_info raw ;;
        passed <- filter_by_views processed min_views ;;
        sort_videos passed "view_count" true)) /\
  (forall (raw : list dict) (min_views : Z) (k : string) (ks : list string),
     process_video_batch raw min_views (Some (k :: ks))
     = (processed <- mapM extract_video_info raw ;;
        passed <- filter_by_views processed min_views ;;
        kept <- filter_by_keywords_in_title passed (k :: ks) false ;;
        sort_videos kept "view_count" true)) /\
  (forall (raw : list dict) (min_views : Z) (filter_keywords : option (list string)),
     (forall e, mapM extract_video_info raw = Raise e ->
                process_video_batch raw min_views filter_keywords = Raise e) /\
     (forall records,
        mapM extract_video_info raw = Ok records ->
        Forall2 (fun v r => extract_video_info v = Ok r) raw records /\
        ((keywords_supplied filter_keywords -> Forall has_text_title records) ->
         exists out,
           process_video_batch raw min_views filter_keywords = Ok out /\
           Permutation
             (filter (keyword_gate filter_keywords)
                (filter (passes_views min_views) records)) out /\
           StronglySorted (in_order "view_count" true) out /\
           forall k,
             filter (same_key "view_count" k) out
             = filter (same_key "view_count" k)
                 (filter (keyword_gate filter_keywords)
                    (filter (passes_views min_views) records))))) /\
  (exists r20000 r15000,
     extract_video_info (stub_with_views "b" "20000") = Ok r20000 /\
     extract_video_info (stub_with_views "c" "15000") = Ok r15000 /\
     process_video_batch
       [stub_with_views "a" "5000"; stub_with_views "b" "20000"; stub_with_views "c" "15000"]
       10000 None
     = Ok [r20000; r15000] /\
     map (fun r => dget r "view_count" PNone) [r20000; r15000]
     = [PInt 20000; PInt 15000]).
Proof.
  split; [reflexivity|]. split; [reflexivity|]. split.
  - intros raw min_views filter_keywords. split.
    + intro e. apply process_video_batch_raise.
    + intros records E. split; [now apply mapM_Forall2|].
      now apply process_video_batch_stages.
  - do 2 eexists. split; [reflexivity|]. split; [reflexivity|].
    split; reflexivity.
Qed.

Lemma process_video_batch_fixed_order_witness :
  exists out,
    process_video_batch [stub_with_views "a" "5000"; stub_with_views "b" "20000"]
      10000 (Some ["space"]) = Ok out /\
    StronglySorted (in_order "view_count" true) out.
Proof.
  destruct (proj2 (proj1 (proj2 (proj2 process_video_batch_fixed_order))
                     [stub_with_views "a" "5000"; stub_with_views "b" "20000"]
                     10000 (Some ["space"])) _ eq_refl) as (_ & H).
  destruct H as (out & E & _ & S & _).
  - intros _. repeat constructor; eexists; reflexivity.
  - exists out. split; assumption.
Defined.

End Pipeline.

(* ================================================================== *)
(** ** Pagination *)

Module Pagination.
Import Py SearchHandler Spec.

Section Loop.
Variable C : Type.
Variable client_search_videos : C -> search_request -> result pyval * C.


Lemma answer_items_ok (response : pyval) (items : list pyval) :
  page_items response = Ok items -> answer_items (Ok response) = items.
Proof. intro H. unfold answer_items. cbn [bind]. now rewrite H. Qed.

Lemma answer_items_fail (answer : result pyval) :
  ~ page_ok answer -> answer_items answer = [].
Proof.
  intro H. unfold answer_items. destruct answer as [response|e]; [|reflexivity].
  cbn [bind]. destruct (page_items response) as [items|e] eqn:E; [|reflexivity].
  exfalso. apply H. now exists response, items.
Qed.

Lemma page_items_dict (response : pyval) (items : list pyval) :
  page_items response = Ok items -> exists d, response = PDict d.
Proof. destruct response; try discriminate. eauto. Qed.

Lemma last_cons_nonempty {A : Type} (x : A) (l : list A) (d d' : A) :
  l <> [] -> last (x :: l) d = last l d'.
Proof.
  revert x. induction l as [|y l IH]; intros x H; [congruence|].
  destruct l as [|z l]; [reflexivity|].
  change (last (x :: y :: z :: l) d) with (last (y :: z :: l) d).
  change (last (y :: z :: l) d') with (last (z :: l) d').
  rewrite <- (IH y) by discriminate. reflexivity.
Qed.

(** Whatever the loop returns is accounted for by a chain of calls. *)
Lemma search_loop_sound (fuel : nat) (q ord : string) (after before : option string)
    (target : Z) :
  forall (c : C) (acc : list pyval) (tok : pyval) (calls0 : list search_call)
         (out : list pyval) (c_end : C) (calls_end : list search_call),
    search_loop C client_search_videos fuel q ord after before target c acc tok calls0 = Some (out, c_end, calls_end) ->
    exists calls,
      calls_end = calls0 ++ calls /\
      search_chain C client_search_videos q ord after before target c acc tok calls c_end /\
      out = acc ++ gathered calls /\
      stop_reason target out calls.
Proof.
  induction fuel as [|fuel IH]; intros c acc tok calls0 out c_end calls_end H.
  - cbn [search_loop] in H.
    destruct (Z.ltb_spec (Z.of_nat (List.length acc)) target); [discriminate|].
    injection H as <- <- <-. exists [].
    rewrite !app_nil_r. repeat split. left. assumption.
  - cbn [search_loop] in H.
    destruct (Z.ltb_spec (Z.of_nat (List.length acc)) target) as [Hlt|Hge].
    2:{ injection H as <- <- <-. exists [].
        rewrite !app_nil_r. repeat split. left. assumption. }
    set (req := {| query := q;
                   max_results := Z.min 50 (target - Z.of_nat (List.length acc));
                   order := ord; page_token := tok;
                   published_after := after; published_before := before |}) in *.
    destruct (client_search_videos c req) as [answer c1] eqn:Ec.
    assert (Ea : answer = fst (client_search_videos c req)) by now rewrite Ec.
    assert (Es : c1 = snd (client_search_videos c req)) by now rewrite Ec.
    destruct answer as [response|e].
    2:{ cbn [bind] in H. injection H as <- <- <-.
        exists [(req, Raise e)]. split; [reflexivity|]. split.
        { cbn [search_chain]. rewrite <- Ea, <- Es.
          repeat split; try assumption; try reflexivity; exfalso; auto. }
        split; [unfold gathered; simpl; now rewrite app_nil_r|].
        right. exists req, (Raise e). repeat split; try discriminate.
        left. intros (r & i & Hr & _). discriminate. }
    cbn [bind] in H.
    destruct (page_items response) as [items|e] eqn:Ep.
    2:{ cbn [bind] in H. injection H as <- <- <-.
        exists [(req, Ok response)]. split; [reflexivity|]. split.
        { cbn [search_chain]. rewrite <- Ea, <- Es.
          repeat split; try assumption; try reflexivity; exfalso; auto. }
        assert (N : ~ page_ok (Ok response)).
        { intros (r & i & Hr & Hi). injection Hr as <-. congruence. }
        split; [unfold gathered; simpl; rewrite (answer_items_fail _ N);
                now rewrite !app_nil_r|].
        right. exists req, (Ok response). repeat split; try discriminate.
        now left. }
    cbn [bind] in H.
    destruct (page_items_dict _ _ Ep) as [d ->].
    cbn [py_get] in H.
    change (dget d "nextPageToken" PNone) with (next_token (Ok (PDict d))) in H.
    destruct (truthy (next_token (Ok (PDict d)))) eqn:Et; cbn [negb] in H.
    + apply IH in H as (calls & -> & Hc & -> & Hs).
      exists ((req, Ok (PDict d)) :: calls).
      split; [now rewrite <- app_assoc|]. split.
      { cbn [search_chain]. rewrite <- Ea, <- Es.
        rewrite (answer_items_ok _ _ Ep).
        repeat split; auto. now exists (PDict d), items. }
      split.
      { unfold gathered. cbn [map List.concat snd].
        rewrite (answer_items_ok _ _ Ep). now rewrite app_assoc. }
      destruct Hs as [Hs|(r & a & Hl & Hne & Hs)]; [now left|].
      right. exists r, a. split; [|split; [discriminate|exact Hs]].
      rewrite (last_cons_nonempty _ _ _ (r, a) Hne). exact Hl.
    + injection H as <- <- <-.
      exists [(req, Ok (PDict d))]. split; [reflexivity|]. split.
      { cbn [search_chain]. rewrite <- Ea, <- Es.
        repeat split; try assumption; try reflexivity; exfalso; auto. }
      split; [unfold gathered; simpl; rewrite (answer_items_ok _ _ Ep);
              now rewrite !app_nil_r|].
      right. exists req, (Ok (PDict d)). repeat split; try discriminate.
      now right.
Qed.

(** With a client whose pages are not empty when they announce a next
    page, the loop is over within [target] iterations. *)
Lemma search_loop_terminates (q ord : string) (after before : option string)
    (target : Z) :
  productive C client_search_videos ->
  forall (fuel : nat) (c : C) (acc : list pyval) (tok : pyval)
         (calls0 : list search_call),
    target - Z.of_nat (List.length acc) <= Z.of_nat fuel ->
    search_loop C client_search_videos fuel q ord after before target c acc tok calls0 <> None.
Proof.
  intro P. induction fuel as [|fuel IH]; intros c acc tok calls0 Hf.
  - cbn [search_loop].
    destruct (Z.ltb_spec (Z.of_nat (List.length acc)) target); [|discriminate].
    simpl in Hf. lia.
  - cbn [search_loop].
    destruct (Z.ltb_spec (Z.of_nat (List.length acc)) target); [|discriminate].
    set (req := {| query := q;
                   max_results := Z.min 50 (target - Z.of_nat (List.length acc));
                   order := ord; page_token := tok;
                   published_after := after; published_before := before |}).
    destruct (client_search_videos c req) as [answer c1] eqn:Ec.
    destruct answer as [response|e]; [|discriminate].
    cbn [bind].
    destruct (page_items response) as [items|e] eqn:Ep; [|discriminate].
    cbn [bind].
    destruct (page_items_dict _ _ Ep) as [d ->]. cbn [py_get].
    change (dget d "nextPageToken" PNone) with (next_token (Ok (PDict d))).
    destruct (truthy (next_token (Ok (PDict d)))) eqn:Et; [|discriminate].
    cbn [negb]. apply IH.
    assert (N : items <> []).
    { apply (P c req (PDict d) items); auto. now rewrite Ec. }
    rewrite length_app. destruct items; [congruence|]. simpl List.length. lia.
Qed.
End Loop.

(** C2. Whenever [search_videos_with_keywords] returns, it returns without
    an exception the items gathered by a chain of calls, in call order: each
    call is issued with fewer than [target] items accumulated, asks for
    [min(50, target - accumulated)] items under the token returned by the
    call before it (none for the first), and every call but the last went
    through and returned a token; the search stopped because the target was
    reached, or the last call failed, or it returned no token, and a failed
    call leaves what was accumulated before it.  With a client whose pages
    are not empty when they announce a next page, it returns within
    [target] iterations.  With a target of 100, a first page of 50 stubs and
    a token and a second page of 30 stubs without token it returns the 80
    stubs after two calls; when the second page fails instead, it returns
    the 50 stubs of the first. *)
Theorem search_videos_with_keywords_paginates :
  (forall (C : Type) (client : C -> search_request -> result pyval * C)
          (fuel : nat) (self : handler) (c : C) (keywords : list string)
          (target : Z) (ord : string) (after before : option string)
          (out : result (list pyval)) (self' : handler) (c' : C)
          (calls : list search_call),
     search_videos_with_keywords C client fuel self c keywords target ord after before
       = Some (out, self', c', calls) ->
     exists videos,
       out = Ok videos /\
       search_results self' = videos /\
       search_chain C client (join " " keywords) ord after before target
         c [] PNone calls c' /\
       videos = gathered calls /\
       stop_reason target videos calls) /\
  (forall (C : Type) (client : C -> search_request -> result pyval * C)
          (self : handler) (c : C) (keywords : list string)
          (target : Z) (ord : string) (after before : option string),
     productive C client ->
     search_videos_with_keywords C client (Z.to_nat target) self c keywords target
       ord after before <> None) /\
  (exists calls,
     search_videos_with_keywords nat (scripted two_pages) 3 fresh_handler O
       ["space"; "launch"] 100 "viewCount" None None
     = Some (Ok (stubs 0 80),
             {| search_results := stubs 0 80; video_details := [] |}, 2%nat, calls) /\
     map (fun call => (query (fst call), max_results (fst call), page_token (fst call)))
       calls
     = [ ("space launch", 50, PNone); ("space launch", 50, PStr "T1") ]) /\
  (exists calls,
     search_videos_with_keywords nat (scripted failing_second_page) 3 fresh_handler O
       ["space"; "launch"] 100 "viewCount" None None
     = Some (Ok (stubs 0 50),
             {| search_results := stubs 0 50; video_details := [] |}, 2%nat, calls) /\
     map (fun call => snd call) calls
     = [ page (stubs 0 50) (Some "T1"); Raise ClientError ]).
Proof.
  split; [|split; [|split]].
  - intros C client fuel self c keywords target ord after before out self' c' calls H.
    unfold search_videos_with_keywords in H.
    destruct (search_loop C client fuel (join " " keywords) ord after before target
                c [] PNone []) as [[[videos c1] calls1]|] eqn:E; [|discriminate].
    injection H as <- <- <- <-.
    apply search_loop_sound in E as (calls & -> & Hc & -> & Hs).
    exists (gathered calls). repeat split; assumption.
  - intros C client self c keywords target ord after before P.
    unfold search_videos_with_keywords.
    pose proof (search_loop_terminates C client (join " " keywords) ord after before
                  target P (Z.to_nat target) c [] PNone []) as T.
    destruct (search_loop C client (Z.to_nat target) (join " " keywords) ord after
                before target c [] PNone []) as [[[videos c1] calls1]|].
    + discriminate.
    + exfalso. apply T; [|reflexivity]. simpl. lia.
  - eexists. split; vm_compute; reflexivity.
  - eexists. split; vm_compute; reflexivity.
Qed.

Lemma search_videos_with_keywords_paginates_witness :
  exists videos calls,
    search_videos_with_keywords nat (scripted two_pages) 3 fresh_handler O
      ["space"] 100 "viewCount" None None
    = Some (Ok videos, {| search_results := videos; video_details := [] |}, 2%nat, calls) /\
    videos = gathered calls /\
    stop_reason 100 videos calls.
Proof.
  pose (run := search_videos_with_keywords nat (scripted two_pages) 3 fresh_handler O
                 ["space"] 100 "viewCount" None None).
  destruct run as [[[[out self'] c'] calls]|] eqn:R; [|vm_compute in R; discriminate R].
  destruct (proj1 search_videos_with_keywords_paginates nat (scripted two_pages) 3%nat
              fresh_handler O ["space"] 100 "viewCount" None None out self' c' calls R)
    as (videos & -> & Hs & _ & Hg & Hr).
  exists videos, calls. subst run.
  assert (E : (self', c') = ({| search_results := videos; video_details := [] |}, 2%nat)).
  { vm_compute in R. injection R as Rv Rs Rc _. subst. reflexivity. }
  injection E as -> ->. repeat split; assumption.
Defined.

(** C9 (as amended). With a target that is negative, or zero, the search
    issues no call and returns the empty list, without raising; the client
    is left as it was. *)
Theorem search_videos_with_keywords_no_target
    (C : Type) (client : C -> search_request -> result pyval * C)
    (fuel : nat) (self : handler) (c : C) (keywords : list string)
    (target : Z) (ord : string) (after before : option string) :
  target <= 0 ->
  search_videos_with_keywords C client fuel self c keywords target ord after before
  = Some (Ok [], {| search_results := []; video_details := video_details self |}, c, []).
Proof.
  intro H. unfold search_videos_with_keywords.
  destruct fuel; cbn [search_loop];
    destruct (Z.ltb_spec (Z.of_nat (List.length (@nil pyval))) target) as [L|L];
    try reflexivity; simpl in L; lia.
Qed.

Lemma search_videos_with_keywords_no_target_witness :
  -1 <= 0 /\
  search_videos_with_keywords nat (scripted two_pages) 3 fresh_handler O
    ["space"] (-1) "viewCount" None None
  = Some (Ok [], {| search_results := []; video_details := [] |}, O, []).
Proof.
  split; [lia|].
  apply (search_videos_with_keywords_no_target nat (scripted two_pages) 3%nat
           fresh_handler O ["space"] (-1) "viewCount" None None).
  lia.
Defined.

(** A negative target raises nothing: the search returns the empty list. *)
Lemma search_videos_with_keywords_negative_target_returns :
  search_videos_with_keywords nat (scripted two_pages) 3 fresh_handler O
    ["space"] (-1) "viewCount" None None
  = Some (Ok [], fresh_handler, O, []).
Proof. reflexivity. Qed.

End Pagination.

(* ================================================================== *)
(** ** Detail batches *)

Module Batcher.
Import Py SearchHandler Spec Pipeline.

Lemma slice_length {A : Type} (l : list A) (i j : nat) :
  List.length (slice l i j) = Nat.min (j - i) (List.length l - i).
Proof. unfold slice. now rewrite length_firstn, length_skipn. Qed.

Lemma slice_shift {A : Type} (l : list A) (n i : nat) :
  slice l (n + i) (n + i + 50) = slice (skipn n l) i (i + 50).
Proof.
  unfold slice. rewrite skipn_skipn.
  replace (n + i + 50 - (n + i))%nat with (i + 50 - i)%nat by lia.
  now rewrite (Nat.add_comm i n).
Qed.

Lemma concat_slices {A : Type} (m : nat) :
  forall l : list A,
    (List.length l <= m * 50)%nat ->
    List.concat (map (fun i => slice l i (i + 50)) (map (fun k => (k * 50)%nat) (seq 0 m))) = l.
Proof.
  induction m as [|m IH]; intros l H.
  - destruct l; [reflexivity|simpl in H; lia].
  - cbn [seq map List.concat]. rewrite <- seq_shift, !map_map.
    rewrite (map_ext _ (fun k => slice (skipn 50 l) (k * 50) (k * 50 + 50))).
    + rewrite <- (map_map (fun k => (k * 50)%nat)
                    (fun i => slice (skipn 50 l) i (i + 50))).
      rewrite IH by (rewrite length_skipn; lia).
      change (slice l (0 * 50) (0 * 50 + 50)) with (firstn 50 (skipn 0 l)).
      apply firstn_skipn.
    + intro k. replace (S k * 50)%nat with (50 + k * 50)%nat by lia.
      apply slice_shift.
Qed.

Lemma ceil_50 (n : nat) : (n <= (n + 50 - 1) / 50 * 50)%nat.
Proof.
  pose proof (Nat.div_mod_eq (n + 50 - 1) 50) as E.
  pose proof (Nat.mod_upper_bound (n + 50 - 1) 50 ltac:(lia)). lia.
Qed.

Lemma concat_batches {A : Type} (l : list A) : List.concat (batches l) = l.
Proof. unfold batches, range_from0. apply concat_slices, ceil_50. Qed.

Lemma batches_lengths {A : Type} (l : list A) :
  map (@List.length A) (batches l)
  = map (fun i => Nat.min 50 (List.length l - i)) (range_from0 (List.length l) 50).
Proof.
  unfold batches. rewrite map_map. apply map_ext. intro i.
  rewrite slice_length. f_equal. lia.
Qed.

Lemma batches_bounds {A : Type} (l : list A) :
  Forall (fun b => (1 <= List.length b <= 50)%nat) (batches l).
Proof.
  unfold batches, range_from0. apply Forall_forall. intros b Hb.
  apply in_map_iff in Hb as (i & <- & Hi).
  apply in_map_iff in Hi as (k & <- & Hk). apply in_seq in Hk.
  rewrite slice_length.
  assert (k * 50 < List.length l)%nat.
  { destruct Hk as [_ Hk].
    pose proof (Nat.div_mod_eq (List.length l + 50 - 1) 50) as E.
    pose proof (Nat.mod_upper_bound (List.length l + 50 - 1) 50 ltac:(lia)).
    lia. }
  lia.
Qed.

Lemma mapM_firstn {A B : Type} (f : A -> result B) (n : nat) :
  forall (l : list A) (ys : list B),
    mapM f l = Ok ys -> mapM f (firstn n l) = Ok (firstn n ys).
Proof.
  induction n as [|n IH]; intros l ys H; [reflexivity|].
  destruct l as [|x l]; simpl in *.
  - injection H as <-. reflexivity.
  - destruct (f x); [|discriminate]. cbn [bind] in *.
    destruct (mapM f l) eqn:E; [|discriminate]. cbn [bind] in *.
    injection H as <-. rewrite (IH l _ E). reflexivity.
Qed.

Lemma mapM_skipn {A B : Type} (f : A -> result B) (n : nat) :
  forall (l : list A) (ys : list B),
    mapM f l = Ok ys -> mapM f (skipn n l) = Ok (skipn n ys).
Proof.
  induction n as [|n IH]; intros l ys H; [exact H|].
  destruct l as [|x l]; simpl in *.
  - injection H as <-. reflexivity.
  - destruct (f x); [|discriminate]. cbn [bind] in *.
    destruct (mapM f l) eqn:E; [|discriminate]. cbn [bind] in *.
    injection H as <-. now apply IH.
Qed.

Lemma mapM_slice {A B : Type} (f : A -> result B) (l : list A) (ys : list B) (i j : nat) :
  mapM f l = Ok ys -> mapM f (slice l i j) = Ok (slice ys i j).
Proof. intro H. unfold slice. now apply mapM_firstn, mapM_skipn. Qed.

Lemma mapM_length {A B : Type} (f : A -> result B) (l : list A) (ys : list B) :
  mapM f l = Ok ys -> List.length ys = List.length l.
Proof.
  intro H. apply mapM_Forall2 in H. symmetry. exact (Forall2_length H).
Qed.

Section Batches.
Variable C : Type.
Variable client_get_video_details : C -> list pyval -> result pyval * C.

Lemma fetch_batches_calls (video_items ids : list pyval) :
  mapM video_id_of video_items = Ok ids ->
  forall (offsets : list nat) (c : C) (all_details : list pyval)
         (calls0 : list details_call),
  exists c' calls,
    fetch_batches C client_get_video_details video_items offsets c all_details calls0
      = (Ok (all_details ++ gathered calls), c', calls0 ++ calls) /\
    map fst calls = map (fun i => slice ids i (i + 50)) offsets /\
    details_chain C client_get_video_details c calls c'.
Proof.
  intros Hids. induction offsets as [|i offsets IH]; intros c all_details calls0.
  - exists c, []. unfold gathered. cbn. rewrite !app_nil_r. repeat split.
  - cbn [fetch_batches]. rewrite (mapM_slice _ _ _ i (i + 50) Hids).
    destruct (client_get_video_details c (slice ids i (i + 50))) as [answer c1] eqn:E.
    destruct (IH c1 (all_details ++ batch_details answer)
                (calls0 ++ [(slice ids i (i + 50), answer)]))
      as (c' & calls & -> & Hf & Hc).
    exists c', ((slice ids i (i + 50), answer) :: calls).
    split; [|split].
    + unfold gathered. cbn [map List.concat snd].
      rewrite <- !app_assoc. reflexivity.
    + cbn [map fst]. now rewrite Hf.
    + cbn [details_chain]. rewrite E. cbn [fst snd]. split; [reflexivity|exact Hc].
Qed.

Lemma fetch_video_statistics_batches (self : handler) (c : C)
    (video_items ids : list pyval) :
  video_items <> [] ->
  mapM video_id_of video_items = Ok ids ->
  exists details c' calls,
    fetch_video_statistics C client_get_video_details self c (Some video_items)
      = (Ok details,
         {| search_results := search_results self; video_details := details |},
         c', calls) /\
    map fst calls = batches ids /\
    details_chain C client_get_video_details c calls c' /\
    details = gathered calls.
Proof.
  intros Hne Hids. unfold fetch_video_statistics.
  destruct video_items as [|x xs] eqn:Ev; [congruence|]. rewrite <- Ev in *.
  destruct (fetch_batches_calls video_items ids Hids
              (range_from0 (List.length video_items) 50) c [] [])
    as (c' & calls & E & Hf & Hc).
  rewrite E. exists (gathered calls), c', calls.
  repeat split; auto.
  unfold batches. rewrite (mapM_length _ _ _ Hids). exact Hf.
Qed.
End Batches.

(** C7. The identifiers are cut into consecutive batches of at most 50,
    none empty, the batch at offset i holding min(50, n - i) of the n
    identifiers, which put together give the identifiers back; 120
    identifiers make batches of 50, 50 and 20.  When every stub carries an
    identifier, one request is sent per batch, in order, to the client in
    the state the previous request left, and the result is what the answers
    contributed, in batch order, a failed batch contributing nothing.  No
    stub means no request, and without an argument the stored search results
    are taken.  With 120 stubs and a failing second batch the items of the
    first and of the third batch are returned. *)
Theorem fetch_video_statistics_in_batches :
  (forall (A : Type) (l : list A),
     List.concat (batches l) = l /\
     Forall (fun b => (1 <= List.length b <= 50)%nat) (batches l) /\
     map (@List.length A) (batches l)
     = map (fun i => Nat.min 50 (List.length l - i)) (range_from0 (List.length l) 50)) /\
  (forall (A : Type) (l : list A),
     List.length l = 120%nat ->
     map (@List.length A) (batches l) = [50; 50; 20]%nat) /\
  (forall (C : Type) (client : C -> list pyval -> result pyval * C)
          (self : handler) (c : C) (video_items ids : list pyval),
     video_items <> [] ->
     mapM video_id_of video_items = Ok ids ->
     exists details c' calls,
       fetch_video_statistics C client self c (Some video_items)
         = (Ok details,
            {| search_results := search_results self; video_details := details |},
            c', calls) /\
       map fst calls = batches ids /\
       details_chain C client c calls c' /\
       details = gathered calls) /\
  (forall (C : Type) (client : C -> list pyval -> result pyval * C)
          (self : handler) (c : C),
     fetch_video_statistics C client self c (Some []) = (Ok [], self, c, []) /\
     fetch_video_statistics C client self c None
     = fetch_video_statistics C client self c (Some (search_results self))) /\
  (exists calls,
     fetch_video_statistics nat (scripted second_batch_fails) fresh_handler O
       (Some (stubs 0 120))
     = (Ok (stubs 0 50 ++ stubs 100 20),
        {| search_results := []; video_details := stubs 0 50 ++ stubs 100 20 |},
        3%nat, calls) /\
     map (fun call => List.length (fst call)) calls = [50; 50; 20]%nat /\
     map snd calls = second_batch_fails).
Proof.
  split; [|split; [|split; [|split]]].
  - intros A l. split; [apply concat_batches|].
    split; [apply batches_bounds|apply batches_lengths].
  - intros A l H. rewrite batches_lengths, H. reflexivity.
  - exact fetch_video_statistics_batches.
  - intros C client self c. split; reflexivity.
  - eexists. split; [vm_compute; reflexivity|]. split; vm_compute; reflexivity.
Qed.

Lemma fetch_video_statistics_in_batches_witness :
  exists details calls,
    fetch_video_statistics nat (scripted second_batch_fails) fresh_handler O
      (Some (stubs 0 120))
    = (Ok details, {| search_results := []; video_details := details |}, 3%nat, calls) /\
    details = gathered calls.
Proof.
  pose (ids := map (fun n => PStr (str_of_int (Z.of_nat n))) (seq 0 120)).
  destruct (proj1 (proj2 (proj2 fetch_video_statistics_in_batches))
              nat (scripted second_batch_fails) fresh_handler O (stubs 0 120) ids)
    as (details & c' & calls & E & _ & _ & G).
  - discriminate.
  - vm_compute. reflexivity.
  - exists details, calls. split; [|exact G].
    rewrite E. f_equal. f_equal.
    assert (Ec : c' = snd (fst (fetch_video_statistics nat (scripted second_batch_fails)
                                  fresh_handler O (Some (stubs 0 120)))))
      by now rewrite E.
    rewrite Ec. vm_compute. reflexivity.
Defined.

End Batcher.

(* ================================================================== *)
(** ** Duration and type filters *)

Module DurationFilters.
Import Py DataProcessor Spec PyFacts DurationCodec Normalizer Pipeline SortFacts.

Lemma parse_duration_nonneg (v : pyval) (d : Z) : parse_duration v = Ok d -> 0 <= d.
Proof.
  destruct v as [|b|z|s|l|x]; intro H.
  - injection H as <-. lia.
  - destruct b; [discriminate|]. injection H as <-. lia.
  - unfold parse_duration in H. simpl in H.
    destruct (z =? 0); simpl in H; [|discriminate]. injection H as <-. lia.
  - destruct (parse_duration_total s) as (z & E & Hz). congruence.
  - destruct l; [|discriminate]. injection H as <-. lia.
  - destruct x; [|discriminate]. injection H as <-. lia.
Qed.

Lemma extract_video_info_duration (video record : dict) :
  extract_video_info video = Ok record ->
  exists d,
    parse_duration (raw_duration video) = Ok d /\
    dget record "duration_seconds" (PInt 0) = PInt d /\
    dget record "is_short" (PBool false) = PBool (is_youtube_short d) /\
    dget record "video_type" PNone = PStr (get_video_type d).
Proof.
  unfold extract_video_info, raw_duration. intro H.
  destruct (dget video "statistics" (PDict [])) as [| | | | |st];
    try discriminate H.
  cbn [py_get bind] in H.
  destruct (py_int (dget st "viewCount" (PInt 0))); [|discriminate H].
  cbn [bind] in H.
  destruct (dget video "contentDetails" (PDict [])) as [| | | | |cd];
    try discriminate H.
  cbn [py_get bind] in H. invert_binds H.
  injection H as <-. eexists. repeat split; try reflexivity; eassumption.
Qed.

Lemma short_iff_type (d : Z) :
  0 <= d -> (is_youtube_short d = true <-> get_video_type d = "Short").
Proof.
  intro H. unfold is_youtube_short, get_video_type.
  destruct (Z.eqb_spec d 0) as [->|N]; [split; discriminate|].
  replace (0 <? d) with true by (symmetry; apply Z.ltb_lt; lia).
  destruct (d <=? 60); [tauto|]. simpl.
  destruct (d <=? 240); [split; discriminate|].
  destruct (d <=? 600); [split; discriminate|].
  destruct (d <=? 1200); split; discriminate.
Qed.

Lemma unknown_iff_zero (d : Z) : get_video_type d = "Unknown" <-> d = 0.
Proof.
  unfold get_video_type. destruct (Z.eqb_spec d 0) as [->|N]; [tauto|].
  destruct (d <=? 60); [split; [discriminate|tauto]|].
  destruct (d <=? 240); [split; [discriminate|tauto]|].
  destruct (d <=? 600); [split; [discriminate|tauto]|].
  destruct (d <=? 1200); split; (discriminate || tauto).
Qed.

(** What every record says about its duration. *)
Lemma record_duration (r : dict) :
  is_record r ->
  exists d,
    0 <= d /\
    dget r "duration_seconds" (PInt 0) = PInt d /\
    dget r "is_short" (PBool false) = PBool (is_youtube_short d) /\
    dget r "video_type" PNone = PStr (get_video_type d).
Proof.
  intros [video H].
  destruct (extract_video_info_duration video r H) as (d & P & Hd & Hs & Ht).
  exists d. repeat split; auto. exact (parse_duration_nonneg _ _ P).
Qed.

(** The duration of a record is never negative, its short flag is set
    exactly when its type is Short, and its type is Unknown exactly when the
    duration is 0. *)
Theorem record_short_flag_agrees_with_type (video record : dict) :
  extract_video_info video = Ok record ->
  exists d,
    dget record "duration_seconds" PNone = PInt d /\
    0 <= d /\
    (dget record "is_short" PNone = PBool true <->
     dget record "video_type" PNone = PStr "Short") /\
    (dget record "video_type" PNone = PStr "Unknown" <-> d = 0).
Proof.
  intro H.
  destruct (extract_video_info_fields video record H)
    as (_ & _ & _ & d & _ & _ & _ & _ & _ & _ & Hd & _ & Hs & Ht & _).
  assert (Hn : 0 <= d).
  { destruct (extract_video_info_duration video record H) as (d' & P & Hd' & _).
    unfold dget in Hd, Hd'. destruct (assoc "duration_seconds" record); [|discriminate].
    assert (d' = d) by congruence. subst. exact (parse_duration_nonneg _ _ P). }
  exists d. split; [exact Hd|]. split; [exact Hn|]. rewrite Hs, Ht. split.
  - split; intro E; injection E as E; apply (short_iff_type d Hn) in E; now rewrite E.
  - split; intro E.
    + injection E as E. now apply unknown_iff_zero.
    + apply unknown_iff_zero in E. now rewrite E.
Qed.

Lemma record_short_flag_agrees_with_type_witness :
  exists d,
    dget (bare_record (PStr "abc")) "duration_seconds" PNone = PInt d /\ 0 <= d.
Proof.
  destruct (record_short_flag_agrees_with_type [("id", PStr "abc")]
              (bare_record (PStr "abc")) eq_refl) as (d & Hd & Hn & _).
  exists d. split; assumption.
Defined.

Lemma filterM_filter {A : Type} (p : A -> result bool) (q : A -> bool) (l : list A) :
  (forall x, In x l -> p x = Ok (q x)) -> filterM p l = Ok (filter q l).
Proof.
  induction l as [|x l IH]; intro H; [reflexivity|].
  cbn [filterM filter]. rewrite (H x (or_introl eq_refl)). cbn [bind].
  rewrite IH by (intros y Hy; apply H; now right). reflexivity.
Qed.


Lemma between_int (lo : Z) (hi : option Z) (v : dict) :
  as_int (dget v "duration_seconds" (PInt 0)) <> None ->
  between lo (dget v "duration_seconds" (PInt 0)) hi = Ok (in_window lo hi v).
Proof.
  unfold between, in_window, int_field.
  destruct (as_int (dget v "duration_seconds" (PInt 0))); [|congruence].
  intros _. destruct (lo <=? z); reflexivity.
Qed.

Lemma filter_by_duration_filter (videos : list dict) (lo : Z) (hi : option Z) :
  int_keys "duration_seconds" videos ->
  filter_by_duration videos lo hi = Ok (filter (in_window lo hi) videos).
Proof.
  intro H. apply filterM_filter. intros v Hv. apply between_int.
  unfold int_keys in H. rewrite Forall_forall in H. exact (H v Hv).
Qed.


Lemma filter_filter {A : Type} (p q : A -> bool) (l : list A) :
  filter q (filter p l) = filter (fun x => p x && q x) l.
Proof.
  induction l as [|x l IH]; [reflexivity|].
  simpl. destruct (p x); simpl; [destruct (q x)|]; now rewrite IH.
Qed.



Lemma records_int_durations (records : list dict) :
  Forall is_record records -> int_keys "duration_seconds" records.
Proof.
  intro H. eapply Forall_impl; [|exact H]. intros r Hr.
  destruct (record_duration r Hr) as (d & _ & Hd & _).
  unfold sort_key. rewrite Hd. discriminate.
Qed.

(** On the records of the normaliser the three ways to ask for Shorts
    agree: the short flag, the type Short, and a duration from 1 to 60
    seconds. *)
Theorem shorts_three_ways (records : list dict) :
  Forall is_record records ->
  filter_by_video_type records ["Short"] = filter_shorts_only records /\
  filter_by_duration records 1 (Some 60) = Ok (filter_shorts_only records).
Proof.
  intro H. split.
  - unfold filter_by_video_type, filter_shorts_only. apply filter_ext_in.
    intros r Hr. rewrite Forall_forall in H.
    destruct (record_duration r (H r Hr)) as (d & Hn & _ & Hs & Ht).
    rewrite Hs, Ht. cbn [existsb py_eq truthy]. rewrite orb_false_r.
    destruct (is_youtube_short d) eqn:E.
    + apply (short_iff_type d Hn) in E. rewrite E. reflexivity.
    + apply String.eqb_neq. intro E'. symmetry in E'.
      apply (short_iff_type d Hn) in E'. congruence.
  - rewrite filter_by_duration_filter by (now apply records_int_durations).
    f_equal. unfold filter_shorts_only. apply filter_ext_in.
    intros r Hr. rewrite Forall_forall in H.
    destruct (record_duration r (H r Hr)) as (d & Hn & Hd & Hs & _).
    rewrite Hs. unfold in_window, int_field. rewrite Hd. cbn [as_int truthy].
    unfold is_youtube_short.
    destruct (Z.leb_spec 1 d), (Z.ltb_spec 0 d); try lia; reflexivity.
Qed.

Lemma shorts_three_ways_witness :
  filter_by_video_type [bare_record (PStr "abc")] ["Short"]
  = filter_shorts_only [bare_record (PStr "abc")].
Proof.
  apply (shorts_three_ways [bare_record (PStr "abc")]).
  repeat constructor. exists [("id", PStr "abc")]. reflexivity.
Defined.

(** Asking for all the types the command line offers still drops the
    records of unknown duration, and only those: it is the duration filter
    from 1 second on.  With Unknown added nothing is dropped, as with the
    default window of the duration filter. *)
Theorem selectable_types_drop_unknown (records : list dict) :
  Forall is_record records ->
  filter_by_duration records 1 None = Ok (filter_by_video_type records selectable_types) /\
  filter_by_video_type records ("Unknown" :: selectable_types) = records /\
  filter_by_duration records 0 None = Ok records.
Proof.
  intro H. pose proof (records_int_durations records H) as K.
  rewrite !filter_by_duration_filter by assumption.
  rewrite Forall_forall in H. repeat split.
  - f_equal. unfold filter_by_video_type. apply filter_ext_in. intros r Hr.
    destruct (record_duration r (H r Hr)) as (d & Hn & Hd & _ & Ht).
    rewrite Ht. unfold in_window, int_field. rewrite Hd. cbn [as_int].
    rewrite andb_true_r. unfold get_video_type, selectable_types.
    destruct (Z.eqb_spec d 0) as [->|N]; [reflexivity|].
    replace (1 <=? d) with true by (symmetry; apply Z.leb_le; lia).
    destruct (d <=? 60); [reflexivity|].
    destruct (d <=? 240); [reflexivity|].
    destruct (d <=? 600); [reflexivity|].
    destruct (d <=? 1200); reflexivity.
  - unfold filter_by_video_type. apply filter_all. intros r Hr.
    destruct (record_duration r (H r Hr)) as (d & _ & _ & _ & Ht).
    rewrite Ht. unfold get_video_type, selectable_types.
    destruct (d =? 0); [reflexivity|].
    destruct (d <=? 60); [reflexivity|].
    destruct (d <=? 240); [reflexivity|].
    destruct (d <=? 600); [reflexivity|].
    destruct (d <=? 1200); reflexivity.
  - f_equal. apply filter_all. intros r Hr.
    destruct (record_duration r (H r Hr)) as (d & Hn & Hd & _).
    unfold in_window, int_field. rewrite Hd. cbn [as_int].
    rewrite andb_true_r. apply Z.leb_le. exact Hn.
Qed.

Lemma selectable_types_drop_unknown_witness :
  filter_by_duration [bare_record (PStr "abc")] 1 None
  = Ok (filter_by_video_type [bare_record (PStr "abc")] selectable_types).
Proof.
  apply (selectable_types_drop_unknown [bare_record (PStr "abc")]).
  repeat constructor. exists [("id", PStr "abc")]. reflexivity.
Defined.

Lemma filter_split {A : Type} (p : A -> bool) (l : list A) :
  Permutation (filter p l ++ filter (fun x => negb (p x)) l) l.
Proof.
  induction l as [|x l IH]; [constructor|].
  simpl. destruct (p x); simpl.
  - now constructor.
  - apply Permutation_sym, Permutation_cons_app, Permutation_sym, IH.
Qed.

(** Shorts-only and no-shorts split any list of records in two: together
    they hold every record once, and no record is kept by both. *)
Theorem shorts_and_regular_split (videos : list dict) :
  Permutation (filter_shorts_only videos ++ filter_regular_videos_only videos) videos /\
  (List.length (filter_shorts_only videos)
   + List.length (filter_regular_videos_only videos) = List.length videos)%nat /\
  (forall v, In v (filter_shorts_only videos) ->
             In v (filter_regular_videos_only videos) -> False) /\
  filter_shorts_only (filter_regular_videos_only videos) = [] /\
  filter_regular_videos_only (filter_shorts_only videos) = [].
Proof.
  unfold filter_shorts_only, filter_regular_videos_only.
  pose proof (filter_split (fun v => truthy (dget v "is_short" (PBool false))) videos) as P.
  split; [exact P|]. split; [|split; [|split]].
  - rewrite <- length_app. apply Permutation_length. exact P.
  - intros v H1 H2. apply filter_In in H1 as [_ H1]. apply filter_In in H2 as [_ H2].
    rewrite H1 in H2. discriminate.
  - apply filter_none. intros v Hv. apply filter_In in Hv as [_ Hv].
    now apply negb_true_iff in Hv.
  - apply filter_none. intros v Hv. apply filter_In in Hv as [_ Hv].
    now rewrite Hv.
Qed.

End DurationFilters.

(* ================================================================== *)
(** ** More on sorting and the view filter *)

Module SortOrder.
Import Py DataProcessor Spec PyFacts SortFacts Pipeline DurationFilters.

Section Unique.
Context {A R : Type}.
Variable key : A -> pyval.
Variable rank : pyval -> option R.
Variable rltb reqb : R -> R -> bool.

Hypothesis rltb_irrefl : forall a, rltb a a = false.
Hypothesis rltb_connected :
  forall a b, rltb a b = false -> rltb b a = false -> a = b.
Hypothesis reqb_eq : forall a b, reqb a b = true <-> a = b.
Hypothesis py_lt_rank :
  forall a b ra rb, rank a = Some ra -> rank b = Some rb -> py_lt a b = Ok (rltb ra rb).
Hypothesis py_eq_rank :
  forall a b ra, rank a = Some ra ->
    py_eq a b = match rank b with Some rb => reqb ra rb | None => false end.

Let ranked (x : A) : Prop := exists r, rank (key x) = Some r.
Let le (a b : A) : Prop := py_lt (key b) (key a) = Ok false.
Let same (k : pyval) (x : A) : bool := py_eq (key x) k.

Lemma head_not_above (x z : A) (t : list A) (rx rz : R) :
  StronglySorted le (x :: t) -> In z (x :: t) ->
  rank (key x) = Some rx -> rank (key z) = Some rz -> rltb rz rx = false.
Proof.
  intros S Hz Hx Hrz. destruct Hz as [<-|Hz].
  - assert (rz = rx) by congruence. subst. apply rltb_irrefl.
  - apply StronglySorted_inv in S as [_ F]. rewrite Forall_forall in F.
    specialize (F z Hz). unfold le in F.
    rewrite (py_lt_rank _ _ rz rx Hrz Hx) in F. congruence.
Qed.

(** Two arrangements of the same elements that are both in key order and
    list the elements of each key in the same order are the same list. *)
Lemma stable_sorted_unique (l1 : list A) :
  forall l2,
    Forall ranked l1 -> Permutation l1 l2 ->
    StronglySorted le l1 -> StronglySorted le l2 ->
    (forall k, filter (same k) l1 = filter (same k) l2) ->
    l1 = l2.
Proof.
  induction l1 as [|x t1 IH]; intros l2 Hr P S1 S2 F.
  - now apply Permutation_nil in P.
  - destruct l2 as [|y t2].
    + apply Permutation_sym, Permutation_nil in P. discriminate.
    + assert (Hr2 : Forall ranked (y :: t2)) by exact (Permutation_Forall P Hr).
      inversion Hr as [|? ? [rx Hx] Hr1]; subst.
      inversion Hr2 as [|? ? [ry Hy] _]; subst.
      assert (Exy : rx = ry).
      { apply rltb_connected.
        - apply (head_not_above y x t2 ry rx S2); auto.
          apply (Permutation_in x P). now left.
        - apply (head_not_above x y t1 rx ry S1); auto.
          apply (Permutation_in y (Permutation_sym P)). now left. }
      subst ry.
      assert (Sx : same (key x) x = true).
      { unfold same. rewrite (py_eq_rank _ _ rx Hx), Hx. now apply reqb_eq. }
      assert (Sy : same (key x) y = true).
      { unfold same. rewrite (py_eq_rank _ _ rx Hy), Hx. now apply reqb_eq. }
      pose proof (F (key x)) as Fx. cbn [filter] in Fx. rewrite Sx, Sy in Fx.
      injection Fx as -> _. f_equal.
      apply IH.
      * assumption.
      * exact (Permutation_cons_inv P).
      * now apply StronglySorted_inv in S1.
      * now apply StronglySorted_inv in S2.
      * intro k. specialize (F k). cbn [filter] in F.
        destruct (same k y); [now injection F|exact F].
Qed.
End Unique.

Lemma rev_injective {A : Type} (l1 l2 : list A) : rev l1 = rev l2 -> l1 = l2.
Proof. intro H. rewrite <- (rev_involutive l1), H. apply rev_involutive. Qed.

Lemma string_ltb_connected (a b : string) :
  String.ltb a b = false -> String.ltb b a = false -> a = b.
Proof.
  unfold String.ltb. rewrite (String.compare_antisym b a).
  destruct (String.compare a b) eqn:E; simpl; try discriminate.
  intros _ _. now apply String.compare_eq_iff.
Qed.

(** Whatever is a permutation of the input in key order with equal keys in
    input order is what [sort_videos] returns. *)
Lemma sort_videos_unique (videos out : list dict) (sort_by : string) (descending : bool) :
  int_keys sort_by videos \/ text_keys sort_by videos ->
  Permutation videos out ->
  StronglySorted (in_order sort_by descending) out ->
  (forall k, filter (same_key sort_by k) out = filter (same_key sort_by k) videos) ->
  sort_videos videos sort_by descending = Ok out.
Proof.
  intros K P S F.
  destruct (sort_videos_comparable videos sort_by descending K) as (o & E & Po & So & Fo).
  rewrite E. f_equal.
  assert (Poo : Permutation o out)
    by (apply perm_trans with videos; [now apply Permutation_sym|assumption]).
  assert (Foo : forall k, filter (same_key sort_by k) o = filter (same_key sort_by k) out)
    by (intro k; now rewrite Fo, F).
  destruct K as [K|K].
  - assert (Ro : Forall (fun x => exists r, as_int (sort_key sort_by x) = Some r) o).
    { apply (Permutation_Forall Po). eapply Forall_impl; [|exact K].
      intros v Hv. now apply some_of_not_none. }
    destruct descending.
    + apply rev_injective.
      apply (stable_sorted_unique (sort_key sort_by) as_int Z.ltb Z.eqb
               Z.ltb_irrefl
               ltac:(intros a b Ha Hb; apply Z.ltb_ge in Ha, Hb; lia)
               Z.eqb_eq py_lt_int py_eq_int).
      * now apply Forall_rev.
      * apply perm_trans with o; [apply Permutation_sym, Permutation_rev|].
        apply perm_trans with out; [assumption|apply Permutation_rev].
      * exact (StronglySorted_rev _ _ So).
      * exact (StronglySorted_rev _ _ S).
      * intro k. rewrite !filter_rev. f_equal. apply Foo.
    + apply (stable_sorted_unique (sort_key sort_by) as_int Z.ltb Z.eqb
               Z.ltb_irrefl
               ltac:(intros a b Ha Hb; apply Z.ltb_ge in Ha, Hb; lia)
               Z.eqb_eq py_lt_int py_eq_int); assumption.
  - assert (Ro : Forall (fun x => exists r, as_text (sort_key sort_by x) = Some r) o).
    { apply (Permutation_Forall Po). eapply Forall_impl; [|exact K].
      intros v Hv. now apply some_of_not_none. }
    destruct descending.
    + apply rev_injective.
      apply (stable_sorted_unique (sort_key sort_by) as_text String.ltb String.eqb
               string_ltb_irrefl string_ltb_connected
               String.eqb_eq py_lt_text py_eq_text).
      * now apply Forall_rev.
      * apply perm_trans with o; [apply Permutation_sym, Permutation_rev|].
        apply perm_trans with out; [assumption|apply Permutation_rev].
      * exact (StronglySorted_rev _ _ So).
      * exact (StronglySorted_rev _ _ S).
      * intro k. rewrite !filter_rev. f_equal. apply Foo.
    + apply (stable_sorted_unique (sort_key sort_by) as_text String.ltb String.eqb
               string_ltb_irrefl string_ltb_connected
               String.eqb_eq py_lt_text py_eq_text); assumption.
Qed.

Lemma comparable_permutation (videos out : list dict) (sort_by : string) :
  int_keys sort_by videos \/ text_keys sort_by videos ->
  Permutation videos out ->
  int_keys sort_by out \/ text_keys sort_by out.
Proof.
  intros [K|K] P; [left|right]; exact (Permutation_Forall P K).
Qed.

Lemma comparable_filter (videos : list dict) (sort_by : string) (p : dict -> bool) :
  int_keys sort_by videos \/ text_keys sort_by videos ->
  int_keys sort_by (filter p videos) \/ text_keys sort_by (filter p videos).
Proof.
  intros [K|K]; [left|right]; apply Forall_filter; exact K.
Qed.

Lemma Permutation_filter {A : Type} (p : A -> bool) (l l' : list A) :
  Permutation l l' -> Permutation (filter p l) (filter p l').
Proof.
  induction 1 as [|x l l' _ IH|x y l|l l' l'' _ IH1 _ IH2]; simpl.
  - constructor.
  - destruct (p x); [now constructor|assumption].
  - destruct (p x), (p y); try apply Permutation_refl. apply perm_swap.
  - now apply perm_trans with (filter p l').
Qed.

Lemma StronglySorted_filter {A : Type} (R : A -> A -> Prop) (p : A -> bool) (l : list A) :
  StronglySorted R l -> StronglySorted R (filter p l).
Proof.
  induction 1 as [|x l S IH F]; simpl; [constructor|].
  destruct (p x); [|assumption]. constructor; [assumption|].
  now apply Forall_filter.
Qed.

Lemma filter_comm {A : Type} (p q : A -> bool) (l : list A) :
  filter p (filter q l) = filter q (filter p l).
Proof.
  rewrite !filter_filter. apply filter_ext. intro x. apply andb_comm.
Qed.

(** Sorting after any selection of records gives what selecting from the
    sorted list gives. *)
Lemma sort_videos_filter (videos : list dict) (sort_by : string) (descending : bool)
    (p : dict -> bool) :
  int_keys sort_by videos \/ text_keys sort_by videos ->
  exists out,
    sort_videos videos sort_by descending = Ok out /\
    sort_videos (filter p videos) sort_by descending = Ok (filter p out).
Proof.
  intro K.
  destruct (sort_videos_comparable videos sort_by descending K) as (out & E & P & S & F).
  exists out. split; [exact E|].
  apply sort_videos_unique.
  - now apply comparable_filter.
  - now apply Permutation_filter.
  - now apply StronglySorted_filter.
  - intro k. rewrite (filter_comm _ p out), (filter_comm _ p videos). now rewrite F.
Qed.

(** [sort_videos] returns the one arrangement of its input that is in key
    order and keeps the records of equal key in input order; so sorting a
    list that was sorted the same way changes nothing. *)
Theorem sort_videos_only_stable_order
    (videos : list dict) (sort_by : string) (descending : bool) :
  int_keys sort_by videos \/ text_keys sort_by videos ->
  (forall out,
     Permutation videos out ->
     StronglySorted (in_order sort_by descending) out ->
     (forall k, filter (same_key sort_by k) out = filter (same_key sort_by k) videos) ->
     sort_videos videos sort_by descending = Ok out) /\
  (forall out,
     sort_videos videos sort_by descending = Ok out ->
     sort_videos out sort_by descending = Ok out).
Proof.
  intro K. split; [intros out; now apply sort_videos_unique|].
  intros out E.
  destruct (sort_videos_comparable videos sort_by descending K) as (o & E' & P & S & F).
  assert (o = out) by congruence. subst o.
  apply sort_videos_unique; auto.
  now apply (comparable_permutation videos).
Qed.

Lemma sort_videos_only_stable_order_witness :
  sort_videos [ [("view_count", PInt 9)]; [("view_count", PInt 2)]; [] ] "view_count" true
  = Ok [ [("view_count", PInt 9)]; [("view_count", PInt 2)]; [] ].
Proof.
  apply (proj2 (sort_videos_only_stable_order
                  [ [("view_count", PInt 2)]; [("view_count", PInt 9)]; [] ]
                  "view_count" true
                  ltac:(left; repeat constructor; discriminate))).
  reflexivity.
Defined.





(** The view filter and the sort can be applied in either order: filtering
    the sorted list gives what sorting the filtered list gives. *)
Theorem filter_by_views_commutes_with_sort
    (videos : list dict) (min_views : Z) (sort_by : string) (descending : bool) :
  int_keys "view_count" videos ->
  int_keys sort_by videos \/ text_keys sort_by videos ->
  (sorted_videos <- sort_videos videos sort_by descending ;;
   filter_by_views sorted_videos min_views)
  = (kept <- filter_by_views videos min_views ;; sort_videos kept sort_by descending).
Proof.
  intros V K.
  destruct (sort_videos_filter videos sort_by descending (passes_views min_views) K)
    as (out & E & E').
  destruct (sort_videos_comparable videos sort_by descending K) as (o & Eo & P & _).
  assert (o = out) by congruence. subst o.
  rewrite E. cbn [bind].
  rewrite (filter_by_views_filter out) by exact (Permutation_Forall P V).
  rewrite (filter_by_views_filter videos) by assumption. cbn [bind].
  now rewrite E'.
Qed.

Lemma filter_by_views_commutes_with_sort_witness :
  (sorted_videos <- sort_videos [[("view_count", PInt 2)]; [("view_count", PInt 9)]]
                      "view_count" true ;;
   filter_by_views sorted_videos 5)
  = (kept <- filter_by_views [[("view_count", PInt 2)]; [("view_count", PInt 9)]] 5 ;;
     sort_videos kept "view_count" true).
Proof.
  apply filter_by_views_commutes_with_sort.
  - repeat constructor; discriminate.
  - left. repeat constructor; discriminate.
Defined.

End SortOrder.

(* ================================================================== *)
(** ** The duration display *)

Module DurationDisplay.
Import Py DataProcessor Spec PyFacts.

Lemma digits_no_colon (s : string) : all_digits s = true -> mem_char ":" s = false.
Proof.
  induction s as [|c s IH]; [reflexivity|].
  simpl. intro H. apply andb_true_iff in H as [Hc Hs]. rewrite (IH Hs), orb_false_r.
  destruct (digit_cases c Hc) as [E|[E|[E|[E|[E|[E|[E|[E|[E|E]]]]]]]]]; subst c; reflexivity.
Qed.

Lemma split_colon_end (a cur : string) :
  mem_char ":" a = false -> split_colon a cur = [(cur ++ a)%string].
Proof.
  revert cur. induction a as [|c a IH]; intros cur H.
  - simpl. now rewrite append_nil_r.
  - simpl in H. apply orb_false_iff in H as [Hc Ha].
    simpl. rewrite Hc, (IH _ Ha), append_assoc. reflexivity.
Qed.

Lemma split_colon_app (a cur rest : string) :
  mem_char ":" a = false ->
  split_colon (a ++ String ":" rest) cur = (cur ++ a)%string :: split_colon rest "".
Proof.
  revert cur. induction a as [|c a IH]; intros cur H.
  - simpl. now rewrite append_nil_r.
  - simpl in H. apply orb_false_iff in H as [Hc Ha].
    simpl. rewrite Hc, (IH _ Ha), append_assoc. reflexivity.
Qed.

Lemma pad2_read (z : Z) :
  0 <= z -> all_digits (pad2 z) = true /\ int_of_str (pad2 z) = Some z.
Proof.
  intro Hz. destruct (str_of_int_digits z Hz) as [Hd Hne].
  pose proof (int_of_str_of_int z Hz) as R.
  unfold pad2. destruct (String.length (str_of_int z) <? 2)%nat; [|now split].
  split; [simpl; exact Hd|].
  rewrite int_of_str_digits by (simpl; exact Hd).
  rewrite int_of_str_digits in R by exact Hd.
  destruct (str_of_int z) as [|c r]; [congruence|].
  simpl in Hd. apply andb_true_iff in Hd as [Hc Hr].
  cbn [append parse_digits] in *. change (is_digit "0") with true. cbv iota.
  rewrite Hc in *. exact R.
Qed.

(** Reading back what [format_duration] displays gives the seconds. *)
Lemma read_display_format (s : Z) : 0 <= s -> read_display (format_duration s) = Some s.
Proof.
  intro Hs. unfold format_duration.
  destruct (Z.eqb_spec s 0) as [->|N]; [reflexivity|].
  assert (Hm : 0 <= s mod 3600 / 60) by (Z.div_mod_to_equations; lia).
  assert (Hc : 0 <= s mod 60) by (Z.div_mod_to_equations; lia).
  destruct (pad2_read (s mod 3600 / 60) Hm) as [Dm Rm].
  destruct (pad2_read (s mod 60) Hc) as [Dc Rc].
  cbv zeta. unfold read_display.
  destruct (Z.ltb_spec 0 (s / 3600)) as [Hh|Hh].
  - destruct (str_of_int_digits (s / 3600) ltac:(lia)) as [Dh _].
    change (str_of_int (s / 3600) ++ ":" ++ pad2 (s mod 3600 / 60) ++ ":"
            ++ pad2 (s mod 60))%string
      with (str_of_int (s / 3600)
            ++ String ":" (pad2 (s mod 3600 / 60) ++ String ":" (pad2 (s mod 60))))%string.
    rewrite split_colon_app by (now apply digits_no_colon).
    rewrite split_colon_app by (now apply digits_no_colon).
    rewrite split_colon_end by (now apply digits_no_colon).
    cbn [map append]. rewrite int_of_str_of_int by lia. rewrite Rm, Rc.
    f_equal. Z.div_mod_to_equations. lia.
  - destruct (str_of_int_digits (s mod 3600 / 60) Hm) as [Dh _].
    change (str_of_int (s mod 3600 / 60) ++ ":" ++ pad2 (s mod 60))%string
      with (str_of_int (s mod 3600 / 60) ++ String ":" (pad2 (s mod 60)))%string.
    rewrite split_colon_app by (now apply digits_no_colon).
    rewrite split_colon_end by (now apply digits_no_colon).
    cbn [map append]. rewrite int_of_str_of_int by lia. rewrite Rc.
    f_equal. Z.div_mod_to_equations. lia.
Qed.

(** Two different non-negative durations are never displayed alike: the
    display can be read back. *)
Theorem format_duration_injective (a b : Z) :
  0 <= a -> 0 <= b -> format_duration a = format_duration b -> a = b.
Proof.
  intros Ha Hb E.
  pose proof (read_display_format a Ha) as Ra.
  pose proof (read_display_format b Hb) as Rb.
  rewrite E in Ra. congruence.
Qed.

Lemma format_duration_injective_witness :
  (0 <= 59 /\ 0 <= 59) /\ 59 = 59.
Proof.
  split; [lia|]. apply (format_duration_injective 59 59); [lia|lia|reflexivity].
Defined.

(** A negative number of seconds is displayed without its hours, as the
    duration it is congruent to modulo one hour. *)
Theorem format_duration_negative (s : Z) :
  s < 0 -> format_duration s = format_duration (s mod 3600).
Proof.
  intro Hs. unfold format_duration.
  destruct (Z.eqb_spec s 0) as [->|_]; [lia|].
  replace (0 <? s / 3600) with false
    by (symmetry; apply Z.ltb_ge; Z.div_mod_to_equations; lia).
  assert (E60 : s mod 3600 mod 60 = s mod 60)
    by (Z.div_mod_to_equations; lia).
  destruct (Z.eqb_spec (s mod 3600) 0) as [E|N].
  - rewrite E in *. rewrite <- E60. reflexivity.
  - cbv zeta. rewrite Z.mod_mod by lia. rewrite E60.
    replace (0 <? s mod 3600 / 3600) with false
      by (symmetry; apply Z.ltb_ge; Z.div_mod_to_equations; lia).
    reflexivity.
Qed.

Lemma format_duration_negative_witness :
  format_duration (-1) = format_duration ((-1) mod 3600).
Proof. apply format_duration_negative. lia. Defined.

End DurationDisplay.

(* ================================================================== *)
(** ** How much a search returns *)

Module PaginationBounds.
Import Py SearchHandler Spec Pagination.

Section Bounds.
Variable C : Type.
Variable client_search_videos : C -> search_request -> result pyval * C.

Lemma search_loop_bounded (q ord : string) (after before : option string) (target : Z) :
  honours_page_size C client_search_videos ->
  forall (fuel : nat) (c : C) (acc : list pyval) (tok : pyval)
         (calls0 : list search_call) (out : list pyval) (c_end : C)
         (calls_end : list search_call),
    search_loop C client_search_videos fuel q ord after before target c acc tok calls0
      = Some (out, c_end, calls_end) ->
    Z.of_nat (List.length out) <= Z.max target (Z.of_nat (List.length acc)).
Proof.
  intro Hp. induction fuel as [|fuel IH];
    intros c acc tok calls0 out c_end calls_end H; cbn [search_loop] in H;
    destruct (Z.ltb_spec (Z.of_nat (List.length acc)) target) as [Hlt|Hge];
    try discriminate; try (injection H as <- <- <-; lia).
  set (req := {| query := q;
                 max_results := Z.min 50 (target - Z.of_nat (List.length acc));
                 order := ord; page_token := tok;
                 published_after := after; published_before := before |}) in *.
  destruct (client_search_videos c req) as [answer c1] eqn:Ec.
  destruct answer as [response|e]; cbn [bind] in H;
    [|injection H as <- <- <-; lia].
  destruct (page_items response) as [items|e] eqn:Ep; cbn [bind] in H;
    [|injection H as <- <- <-; lia].
  assert (Hi : Z.of_nat (List.length items) <= target - Z.of_nat (List.length acc)).
  { pose proof (Hp c req response items) as B. rewrite Ec in B.
    specialize (B eq_refl Ep). simpl in B. lia. }
  assert (Hl : Z.of_nat (List.length (acc ++ items)) <= target)
    by (rewrite length_app; lia).
  destruct (py_get response "nextPageToken" PNone) as [token|e];
    [|injection H as <- <- <-; lia].
  destruct (negb (truthy token)); [injection H as <- <- <-; lia|].
  apply IH in H. lia.
Qed.

Lemma search_chain_page_sizes (q ord : string) (after before : option string)
    (target : Z) (calls : list search_call) :
  forall (c : C) (acc : list pyval) (tok : pyval) (c_end : C),
    search_chain C client_search_videos q ord after before target c acc tok calls c_end ->
    Forall (fun call => 1 <= max_results (fst call) <= 50) calls.
Proof.
  induction calls as [|[req answer] calls IH]; intros c acc tok c_end H; [constructor|].
  cbn [search_chain] in H. destruct H as (Hlt & -> & _ & _ & H).
  constructor; [simpl; lia|]. exact (IH _ _ _ _ H).
Qed.

(** With a client that always has a full page and announces a further one,
    the loop takes exactly as many pages as the target needs. *)
Lemma search_loop_full_pages (q ord : string) (after before : option string)
    (target : Z) :
  full_pages C client_search_videos ->
  forall (fuel : nat) (c : C) (acc : list pyval) (tok : pyval)
         (calls0 : list search_call),
    Z.of_nat (List.length acc) <= target ->
    target - Z.of_nat (List.length acc) <= 50 * Z.of_nat fuel ->
    exists out c_end calls,
      search_loop C client_search_videos fuel q ord after before target c acc tok calls0
        = Some (out, c_end, calls0 ++ calls) /\
      Z.of_nat (List.length out) = target /\
      Z.of_nat (List.length calls) = (target - Z.of_nat (List.length acc) + 49) / 50.
Proof.
  intro Hf. induction fuel as [|fuel IH]; intros c acc tok calls0 Ha Hfuel;
    cbn [search_loop];
    destruct (Z.ltb_spec (Z.of_nat (List.length acc)) target) as [Hlt|Hge].
  - simpl in Hfuel. lia.
  - exists acc, c, []. rewrite app_nil_r. repeat split; [lia|].
    simpl. Z.div_mod_to_equations. lia.
  - set (req := {| query := q;
                   max_results := Z.min 50 (target - Z.of_nat (List.length acc));
                   order := ord; page_token := tok;
                   published_after := after; published_before := before |}).
    destruct (Hf c req) as (response & items & Er & Ep & Et & Hn).
    destruct (client_search_videos c req) as [answer c1] eqn:Ec.
    simpl in Er. subst answer. cbn [bind]. rewrite Ep. cbn [bind].
    destruct (page_items_dict _ _ Ep) as [d ->]. cbn [py_get].
    change (dget d "nextPageToken" PNone) with (next_token (Ok (PDict d))).
    rewrite Et. cbn [negb].
    assert (Hl : Z.of_nat (List.length items)
                 = Z.min 50 (target - Z.of_nat (List.length acc)))
      by (apply Hn; simpl; lia).
    destruct (IH c1 (acc ++ items) (next_token (Ok (PDict d)))
                (calls0 ++ [(req, Ok (PDict d))]))
      as (out & c_end & calls & E & Eo & En).
    + rewrite length_app. lia.
    + rewrite length_app. lia.
    + exists out, c_end, ((req, Ok (PDict d)) :: calls).
      rewrite E, <- app_assoc. repeat split; [exact Eo|].
      rewrite length_app in En.
      change (List.length ((req, Ok (PDict d)) :: calls)) with (S (List.length calls)).
      rewrite Nat2Z.inj_succ, En. Z.div_mod_to_equations. lia.
  - exists acc, c, []. rewrite app_nil_r. repeat split; [lia|].
    simpl. Z.div_mod_to_equations. lia.
Qed.
End Bounds.

(** A search never asks for fewer than 1 or more than 50 items in a call,
    and when the client returns no more items than it was asked for, the
    search returns no more than the target (nothing for a negative
    target). *)
Theorem search_never_exceeds_target
    (C : Type) (client : C -> search_request -> result pyval * C)
    (fuel : nat) (self : handler) (c : C) (keywords : list string)
    (target : Z) (ord : string) (after before : option string)
    (videos : list pyval) (self' : handler) (c' : C) (calls : list search_call) :
  search_videos_with_keywords C client fuel self c keywords target ord after before
    = Some (Ok videos, self', c', calls) ->
  Forall (fun call => 1 <= max_results (fst call) <= 50) calls /\
  (honours_page_size C client -> Z.of_nat (List.length videos) <= Z.max target 0).
Proof.
  intro H. unfold search_videos_with_keywords in H.
  destruct (search_loop C client fuel (join " " keywords) ord after before target
              c [] PNone []) as [[[out c1] calls1]|] eqn:E; [|discriminate].
  injection H as <- <- <- <-. split.
  - apply search_loop_sound in E as (calls & -> & Hc & _).
    exact (search_chain_page_sizes C client _ _ _ _ _ _ _ _ _ _ Hc).
  - intro Hp.
    exact (search_loop_bounded C client _ _ _ _ _ Hp _ _ _ _ _ _ _ _ E).
Qed.

Lemma search_never_exceeds_target_witness :
  exists videos calls,
    search_videos_with_keywords nat (scripted two_pages) 3 fresh_handler O
      ["space"] 100 "viewCount" None None
    = Some (Ok videos, {| search_results := videos; video_details := [] |}, 2%nat, calls) /\
    Forall (fun call => 1 <= max_results (fst call) <= 50) calls.
Proof.
  pose (run := search_videos_with_keywords nat (scripted two_pages) 3 fresh_handler O
                 ["space"] 100 "viewCount" None None).
  assert (R : run = run) by reflexivity.
  unfold run at 2 in R. vm_compute in R.
  match type of R with
  | _ = Some (Ok ?v, ?s, ?k, ?cs) =>
      exists v, cs; split; [exact R|];
      exact (proj1 (search_never_exceeds_target nat (scripted two_pages) 3%nat
                      fresh_handler O ["space"] 100 "viewCount" None None
                      v s k cs R))
  end.
Defined.

(** With a client that always has a full page and announces a further one,
    a search for a non-negative target returns exactly that many items, in
    as many calls as pages of 50 are needed. *)
Theorem search_full_pages_exact
    (C : Type) (client : C -> search_request -> result pyval * C)
    (self : handler) (c : C) (keywords : list string)
    (target : Z) (ord : string) (after before : option string) :
  full_pages C client ->
  0 <= target ->
  exists videos self' c' calls,
    search_videos_with_keywords C client (Z.to_nat target) self c keywords target
      ord after before = Some (Ok videos, self', c', calls) /\
    Z.of_nat (List.length videos) = target /\
    Z.of_nat (List.length calls) = (target + 49) / 50.
Proof.
  intros Hf Ht. unfold search_videos_with_keywords.
  destruct (search_loop_full_pages C client (join " " keywords) ord after before target
              Hf (Z.to_nat target) c [] PNone [])
    as (out & c_end & calls & E & Eo & En);
    [simpl; lia|cbn [List.length]; rewrite Z2Nat.id by lia; lia|].
  rewrite E. cbn [app]. do 4 eexists. split; [reflexivity|]. split; [exact Eo|].
  rewrite En. cbn [List.length]. f_equal. lia.
Qed.

Lemma generous_full_pages : full_pages nat generous.
Proof.
  intros c req. do 2 eexists. split; [reflexivity|]. split; [reflexivity|].
  split; [reflexivity|]. intro H.
  unfold stubs. rewrite length_map, length_seq. lia.
Qed.

Lemma search_full_pages_exact_witness :
  exists videos self' c' calls,
    search_videos_with_keywords nat generous (Z.to_nat 120) fresh_handler O
      ["space"] 120 "viewCount" None None = Some (Ok videos, self', c', calls) /\
    Z.of_nat (List.length videos) = 120 /\
    Z.of_nat (List.length calls) = (120 + 49) / 50.
Proof.
  apply (search_full_pages_exact nat generous fresh_handler O ["space"] 120 "viewCount"
           None None generous_full_pages).
  lia.
Defined.

End PaginationBounds.

(* ================================================================== *)
(** ** From the search to the details *)

Module DetailsFlow.
Import Py SearchHandler Spec Pipeline Pagination Batcher.

Lemma mapM_app_raise {A B : Type} (f : A -> result B) (a b : list A) (e : exn) :
  mapM f (a ++ b) = Raise e ->
  mapM f a = Raise e \/ (exists ys, mapM f a = Ok ys) /\ mapM f b = Raise e.
Proof.
  induction a as [|x a IH]; intro H.
  - right. split; [now exists []|exact H].
  - cbn [app mapM] in *. destruct (f x) as [y|e']; cbn [bind] in *; [|now left].
    destruct (mapM f (a ++ b)) as [ys|e'] eqn:E; cbn [bind] in H; [discriminate|].
    injection H as ->. destruct (IH eq_refl) as [Ha|[[ys Ha] Hb]].
    + left. now rewrite Ha.
    + right. split; [|exact Hb]. rewrite Ha. cbn [bind]. eauto.
Qed.

Section Flow.
Variable C : Type.
Variable client_search_videos : C -> search_request -> result pyval * C.
Variable client_get_video_details : C -> list pyval -> result pyval * C.

Lemma fetch_batches_raise (video_items : list pyval) (e : exn) :
  forall (offsets : list nat) (c : C) (all_details : list pyval)
         (calls0 : list details_call),
    mapM video_id_of
      (List.concat (map (fun i => slice video_items i (i + 50)) offsets)) = Raise e ->
    exists c' calls,
      fetch_batches C client_get_video_details video_items offsets c all_details calls0
        = (Raise e, c', calls0 ++ calls) /\
      (List.length calls < List.length offsets)%nat /\
      details_chain C client_get_video_details c calls c'.
Proof.
  induction offsets as [|i offsets IH]; intros c all_details calls0 H; [discriminate|].
  cbn [map List.concat] in H. cbn [fetch_batches].
  destruct (mapM_app_raise _ _ _ _ H) as [Hb|[[ids Hb] Hr]]; rewrite Hb.
  - exists c, []. rewrite app_nil_r. repeat split. simpl. lia.
  - destruct (client_get_video_details c ids) as [answer c1] eqn:E.
    destruct (IH c1 (all_details ++ batch_details answer) (calls0 ++ [(ids, answer)]) Hr)
      as (c' & calls & -> & Hl & Hc).
    exists c', ((ids, answer) :: calls). rewrite <- app_assoc.
    split; [reflexivity|]. split; [simpl; lia|].
    cbn [details_chain]. rewrite E. split; [reflexivity|exact Hc].
Qed.

(** C7 covers stubs that all carry an identifier.  When one does not, the
    exception of the look-up leaves [fetch_video_statistics], although the
    requests of the batches before it were sent, and the stored details are
    not replaced. *)
Lemma fetch_video_statistics_raises (self : handler) (c : C)
    (video_items : list pyval) (e : exn) :
  mapM video_id_of video_items = Raise e ->
  exists c' calls,
    fetch_video_statistics C client_get_video_details self c (Some video_items)
      = (Raise e, self, c', calls) /\
    (List.length calls < List.length (batches video_items))%nat /\
    details_chain C client_get_video_details c calls c'.
Proof.
  intro H. unfold fetch_video_statistics.
  destruct video_items as [|x xs] eqn:Ev; [discriminate|]. rewrite <- Ev in *.
  destruct (fetch_batches_raise video_items e
              (range_from0 (List.length video_items) 50) c [] [])
    as (c' & calls & E & Hl & Hc).
  { fold (batches video_items). now rewrite concat_batches. }
  rewrite E. exists c', calls. repeat split; auto.
  unfold batches. now rewrite length_map.
Qed.

Lemma search_and_get_details_flow (fuel : nat) (self : handler) (c : C)
    (keywords : list string) (max_results : Z) (after before : option string)
    (out : result (list pyval)) (self' : handler) (c' : C)
    (searches : list search_call) (lookups : list details_call) :
  search_and_get_details C client_search_videos client_get_video_details fuel self c
    keywords max_results after before = Some (out, self', c', searches, lookups) ->
  search_results self' = gathered searches /\
  (gathered searches = [] ->
   out = Ok [] /\ lookups = [] /\ video_details self' = video_details self) /\
  (forall ids,
     gathered searches <> [] ->
     mapM video_id_of (gathered searches) = Ok ids ->
     map fst lookups = batches ids /\
     out = Ok (gathered lookups) /\
     video_details self' = gathered lookups) /\
  (forall e,
     mapM video_id_of (gathered searches) = Raise e ->
     out = Raise e /\ video_details self' = video_details self).
Proof.
  unfold search_and_get_details, search_videos_with_keywords. intro H.
  destruct (search_loop C client_search_videos fuel (join " " keywords) "viewCount"
              after before max_results c [] PNone [])
    as [[[stubs c1] calls1]|] eqn:E; [|discriminate].
  apply search_loop_sound in E as (calls & -> & _ & -> & _).
  cbn [app] in H.
  set (self1 := {| search_results := gathered calls;
                   video_details := video_details self |}) in *.
  destruct (fetch_video_statistics C client_get_video_details self1 c1
              (Some (gathered calls))) as [[[details self2] c2] lk] eqn:F.
  injection H as <- <- <- <- <-.
  split; [|split; [|split]].
  - unfold fetch_video_statistics in F.
    destruct (gathered calls) as [|p l]; [injection F as <- <- <- <-; reflexivity|].
    match type of F with
    | context [fetch_batches ?a ?b ?x ?y ?z ?u ?v] =>
        destruct (fetch_batches a b x y z u v) as [[[d|e] c3] l3]
    end; injection F as <- <- <- <-; reflexivity.
  - intro G. rewrite G in F. injection F as <- <- <- <-. auto.
  - intros ids Hne Hids.
    destruct (fetch_video_statistics_batches C client_get_video_details self1 c1
                (gathered calls) ids Hne Hids) as (d & c3 & l3 & F' & Hf & _ & ->).
    rewrite F' in F. injection F as <- <- <- <-. auto.
  - intros e He.
    destruct (fetch_video_statistics_raises self1 c1 (gathered calls) e He)
      as (c3 & l3 & F' & _).
    rewrite F' in F. injection F as <- <- <- <-. auto.
Qed.
End Flow.

(** When a stub lacks its identifier, [fetch_video_statistics] raises: the
    exception of the look-up is not caught, fewer requests than there are
    batches have been sent by then, and the handler keeps the details it
    had. *)
Theorem fetch_video_statistics_missing_identifier
    (C : Type) (client : C -> list pyval -> result pyval * C)
    (self : handler) (c : C) (video_items : list pyval) (e : exn) :
  mapM video_id_of video_items = Raise e ->
  exists c' calls,
    fetch_video_statistics C client self c (Some video_items)
      = (Raise e, self, c', calls) /\
    (List.length calls < List.length (batches video_items))%nat /\
    details_chain C client c calls c'.
Proof. apply fetch_video_statistics_raises. Qed.

Lemma fetch_video_statistics_missing_identifier_witness :
  exists c' calls,
    fetch_video_statistics nat (scripted second_batch_fails) fresh_handler O
      (Some (stubs 0 60 ++ [PDict []]))
    = (Raise KeyError, fresh_handler, c', calls) /\
    (List.length calls < List.length (batches (stubs 0 60 ++ [PDict []])))%nat.
Proof.
  destruct (fetch_video_statistics_missing_identifier nat (scripted second_batch_fails)
              fresh_handler O (stubs 0 60 ++ [PDict []]) KeyError)
    as (c' & calls & E & L & _).
  - vm_compute. reflexivity.
  - exists c', calls. split; assumption.
Defined.

(** [search_and_get_details] stores what the search gathered and asks for
    the details of exactly that, in batches of the gathered identifiers;
    when the search gathered nothing no details are asked for and the
    result is empty; when a gathered stub lacks its identifier the
    exception leaves the method and the stored details stay as they
    were. *)
Theorem search_and_get_details_asks_for_what_it_found
    (C : Type) (search : C -> search_request -> result pyval * C)
    (details : C -> list pyval -> result pyval * C)
    (fuel : nat) (self : handler) (c : C)
    (keywords : list string) (max_results : Z) (after before : option string)
    (out : result (list pyval)) (self' : handler) (c' : C)
    (searches : list search_call) (lookups : list details_call) :
  search_and_get_details C search details fuel self c keywords max_results after before
    = Some (out, self', c', searches, lookups) ->
  search_results self' = gathered searches /\
  (gathered searches = [] ->
   out = Ok [] /\ lookups = [] /\ video_details self' = video_details self) /\
  (forall ids,
     gathered searches <> [] ->
     mapM video_id_of (gathered searches) = Ok ids ->
     map fst lookups = batches ids /\
     out = Ok (gathered lookups) /\
     video_details self' = gathered lookups) /\
  (forall e,
     mapM video_id_of (gathered searches) = Raise e ->
     out = Raise e /\ video_details self' = video_details self).
Proof. apply search_and_get_details_flow. Qed.

Lemma search_and_get_details_asks_for_what_it_found_witness :
  exists out self' c' searches lookups,
    search_and_get_details nat (scripted two_pages) (scripted second_batch_fails)
      3 fresh_handler O ["space"] 100 None None
    = Some (out, self', c', searches, lookups) /\
    search_results self' = gathered searches.
Proof.
  pose (run := search_and_get_details nat (scripted two_pages)
                 (scripted second_batch_fails) 3 fresh_handler O ["space"] 100 None None).
  assert (R : run = run) by reflexivity.
  unfold run at 2 in R. vm_compute in R.
  match type of R with
  | _ = Some (?o, ?s, ?k, ?ss, ?ls) =>
      exists o, s, k, ss, ls; split; [exact R|];
      exact (proj1 (search_and_get_details_asks_for_what_it_found nat
                      (scripted two_pages) (scripted second_batch_fails) 3%nat
                      fresh_handler O ["space"] 100 None None o s k ss ls R))
  end.
Defined.

End DetailsFlow.

(* ================================================================== *)
(** ** What is written out *)

Module Storage.
Import Py DataProcessor StorageHandler Spec Normalizer.

Lemma assoc_dict_set_same (k : string) (v : pyval) (d : dict) :
  assoc k (dict_set k v d) = Some v.
Proof.
  induction d as [|[k' v'] d IH]; simpl.
  - now rewrite String.eqb_refl.
  - destruct (String.eqb k k') eqn:E; simpl; [now rewrite String.eqb_refl|].
    now rewrite E.
Qed.

Lemma assoc_dict_set_other (k k' : string) (v : pyval) (d : dict) :
  k' <> k -> assoc k' (dict_set k v d) = assoc k' d.
Proof.
  intro N. apply String.eqb_neq in N.
  induction d as [|[k0 v0] d IH]; simpl.
  - now rewrite N.
  - destruct (String.eqb k k0) eqn:E; simpl.
    + apply String.eqb_eq in E. subst k0. now rewrite N.
    + now rewrite IH.
Qed.

Lemma assoc_dict_pop_same (k : string) (d : dict) : assoc k (dict_pop k d) = None.
Proof.
  unfold dict_pop. induction d as [|[k0 v0] d IH]; [reflexivity|].
  simpl. destruct (String.eqb k k0) eqn:E; simpl; [exact IH|]. now rewrite E.
Qed.

Lemma assoc_dict_pop_other (k k' : string) (d : dict) :
  k' <> k -> assoc k' (dict_pop k d) = assoc k' d.
Proof.
  intro N. unfold dict_pop. induction d as [|[k0 v0] d IH]; [reflexivity|].
  simpl. destruct (String.eqb k k0) eqn:E; simpl.
  - apply String.eqb_eq in E. subst k0.
    apply String.eqb_neq in N. now rewrite N.
  - now rewrite IH.
Qed.

(** In the JSON file a record that has a thumbnail object carries it under
    [thumbnail] and has neither [thumbnail_url] nor [thumbnail_object]; all
    its other fields are as they were.  A record without a thumbnail object
    is written unchanged.  The count written beside the records is their
    number, and nothing is written for an empty list. *)
Theorem save_to_json_moves_thumbnail :
  (forall (video : dict) (thumbnail : pyval),
     assoc "thumbnail_object" video = Some thumbnail ->
     assoc "thumbnail" (json_video video) = Some thumbnail /\
     assoc "thumbnail_url" (json_video video) = None /\
     assoc "thumbnail_object" (json_video video) = None /\
     forall k, k <> "thumbnail" -> k <> "thumbnail_url" -> k <> "thumbnail_object" ->
               assoc k (json_video video) = assoc k video) /\
  (forall video : dict,
     assoc "thumbnail_object" video = None -> json_video video = video) /\
  (forall (output_dir stamp now base : string) (videos : list dict),
     videos <> [] ->
     save_to_json output_dir stamp now videos base
     = (_generate_filename output_dir stamp base "json",
        Some (_generate_filename output_dir stamp base "json",
              PDict [ ("timestamp", PStr now);
                      ("video_count", PInt (Z.of_nat (List.length videos)));
                      ("videos", PList (map (fun v => PDict (json_video v)) videos)) ]))) /\
  (forall output_dir stamp now base : string,
     save_to_json output_dir stamp now [] base = ("", None)).
Proof.
  split; [|split; [|split]].
  - intros video t H. unfold json_video. rewrite H. repeat split.
    + rewrite !assoc_dict_pop_other by discriminate. apply assoc_dict_set_same.
    + rewrite assoc_dict_pop_other by discriminate. apply assoc_dict_pop_same.
    + apply assoc_dict_pop_same.
    + intros k N1 N2 N3. rewrite !assoc_dict_pop_other by assumption.
      now apply assoc_dict_set_other.
  - intros video H. unfold json_video. now rewrite H.
  - intros dir stamp now base videos H. unfold save_to_json.
    destruct videos as [|v vs]; [congruence|].
    rewrite length_map, map_map. reflexivity.
  - reflexivity.
Qed.

Lemma save_to_json_moves_thumbnail_witness :
  assoc "thumbnail" (json_video (bare_record (PStr "abc")))
  = Some (PDict [("url", PStr ""); ("width", PInt 0); ("height", PInt 0)]).
Proof.
  apply (proj1 save_to_json_moves_thumbnail). reflexivity.
Defined.

Lemma record_has_csv_columns (video record : dict) :
  extract_video_info video = Ok record ->
  Forall (fun col => assoc col record <> None) csv_columns.
Proof.
  unfold extract_video_info. intro H. invert_binds H. injection H as <-.
  repeat constructor; discriminate.
Qed.

Lemma record_general_has_csv_columns (video record : dict) :
  extract_video_info_general video = Ok record ->
  Forall (fun col => assoc col record <> None) csv_columns_general.
Proof.
  unfold extract_video_info_general. intro H. invert_binds H. injection H as <-.
  repeat constructor; discriminate.
Qed.

Lemma row_cells (columns : list string) (r : dict) :
  Forall (fun col => assoc col r <> None) columns ->
  Forall2 (fun col cell => assoc col r = Some cell) columns
    (map (fun col => dget r col (PStr "")) columns).
Proof.
  induction 1 as [|col columns H _ IH]; [constructor|].
  cbn [map]. constructor; [|exact IH].
  unfold dget. destruct (assoc col r); [reflexivity|congruence].
Qed.

Lemma save_to_csv_with_rows (columns : list string) (output_dir stamp base : string)
    (videos : list dict) :
  videos <> [] ->
  Forall (fun r => Forall (fun col => assoc col r <> None) columns) videos ->
  exists file,
    save_to_csv_with columns output_dir stamp videos base = (csv_path file, Some file) /\
    csv_path file = _generate_filename output_dir stamp base "csv" /\
    csv_header file = columns /\
    Forall2 (fun r row => Forall2 (fun col cell => assoc col r = Some cell) columns row)
      videos (csv_rows file).
Proof.
  intros Hne H. unfold save_to_csv_with.
  destruct videos as [|v vs] eqn:Ev; [congruence|]. rewrite <- Ev in *.
  exists {| csv_path := _generate_filename output_dir stamp base "csv";
            csv_header := columns;
            csv_rows := map (fun video => map (fun col => dget video col (PStr "")) columns)
                          videos |}.
  split; [reflexivity|]. cbn [csv_path csv_header csv_rows].
  split; [reflexivity|]. split; [reflexivity|]. clear Ev Hne.
  induction H as [|r videos Hr _ IH]; [constructor|].
  cbn [map]. constructor; [now apply row_cells|exact IH].
Qed.

(** Every column of the CSV file is a field of the records the normaliser
    makes, in the title-search variant and in the general one: each cell of
    a row is the record's own value, and the empty-string default for a
    missing field is never used.  Nothing is written for an empty list. *)
Theorem save_to_csv_columns_are_record_fields :
  (forall (output_dir stamp base : string) (raw records : list dict),
     records <> [] ->
     mapM extract_video_info raw = Ok records ->
     exists file,
       save_to_csv output_dir stamp records base = (csv_path file, Some file) /\
       csv_path file = _generate_filename output_dir stamp base "csv" /\
       csv_header file = csv_columns /\
       Forall2 (fun r row =>
                  Forall2 (fun col cell => assoc col r = Some cell) csv_columns row)
         records (csv_rows file)) /\
  (forall (output_dir stamp base : string) (raw records : list dict),
     records <> [] ->
     mapM extract_video_info_general raw = Ok records ->
     exists file,
       save_to_csv_general output_dir stamp records base = (csv_path file, Some file) /\
       csv_path file = _generate_filename output_dir stamp base "csv" /\
       csv_header file = csv_columns_general /\
       Forall2 (fun r row =>
                  Forall2 (fun col cell => assoc col r = Some cell)
                    csv_columns_general row)
         records (csv_rows file)) /\
  (forall output_dir stamp base : string,
     save_to_csv output_dir stamp [] base = ("", None) /\
     save_to_csv_general output_dir stamp [] base = ("", None)).
Proof.
  split; [|split].
  - intros dir stamp base raw records Hne H.
    apply save_to_csv_with_rows; [assumption|].
    apply Pipeline.mapM_Forall2 in H. clear Hne.
    induction H as [|v r raw records Hr _ IH]; constructor.
    + exact (record_has_csv_columns v r Hr).
    + exact IH.
  - intros dir stamp base raw records Hne H.
    apply save_to_csv_with_rows; [assumption|].
    apply Pipeline.mapM_Forall2 in H. clear Hne.
    induction H as [|v r raw records Hr _ IH]; constructor.
    + exact (record_general_has_csv_columns v r Hr).
    + exact IH.
  - intros. split; reflexivity.
Qed.

Lemma save_to_csv_columns_are_record_fields_witness :
  exists file,
    save_to_csv "output" "20240101_000000" [bare_record (PStr "abc")] "youtube_space"
    = (csv_path file, Some file) /\
    csv_path file = "output/youtube_space_20240101_000000.csv".
Proof.
  destruct (proj1 save_to_csv_columns_are_record_fields
              "output" "20240101_000000" "youtube_space"
              [[("id", PStr "abc")]] [bare_record (PStr "abc")])
    as (file & E & P & _).
  - discriminate.
  - reflexivity.
  - exists file. split; [exact E|]. rewrite P. reflexivity.
Defined.

End Storage.

(* ================================================================== *)
(** ** More on records and keywords *)

Module Records.
Import Py DataProcessor Spec PyFacts KeywordFilter SortFacts Normalizer Pipeline
  DurationFilters SortOrder.

Lemma firstn_str_length (n : nat) (t : string) :
  (String.length (firstn_str n t) <= n)%nat.
Proof.
  revert t. induction n as [|n IH]; intro t; [simpl; lia|].
  destruct t as [|c t]; simpl; [lia|]. specialize (IH t). lia.
Qed.

Lemma firstn_str_prefix (n : nat) (t : string) : prefixb (firstn_str n t) t = true.
Proof.
  revert t. induction n as [|n IH]; intro t; [reflexivity|].
  destruct t as [|c t]; [reflexivity|]. simpl. now rewrite Ascii.eqb_refl, IH.
Qed.

Lemma firstn_str_all (n : nat) (t : string) :
  (String.length t <= n)%nat -> firstn_str n t = t.
Proof.
  revert t. induction n as [|n IH]; intros t H.
  - destruct t; [reflexivity|simpl in H; lia].
  - destruct t as [|c t]; [reflexivity|]. simpl in *. rewrite IH by lia. reflexivity.
Qed.

Lemma mapM_as_str_map (strs : list string) : mapM as_str (map PStr strs) = Ok strs.
Proof. induction strs as [|x l IH]; [reflexivity|]. simpl. now rewrite IH. Qed.

(** The derived fields of a record follow from its plain ones: the short
    description is the description cut after 500 characters (the whole of
    it when it is no longer), the tags text joins the tag list with a comma
    and a blank and reads No tags when there are none, and the thumbnail
    text is the url of the thumbnail object or, when that is empty, No
    thumbnail. *)
Theorem record_derived_fields (video record : dict) :
  extract_video_info video = Ok record ->
  (forall t,
     dget record "description" PNone = PStr t ->
     dget record "description_short" PNone = PStr (firstn_str 500 t) /\
     prefixb (firstn_str 500 t) t = true /\
     (String.length (firstn_str 500 t) <= 500)%nat /\
     ((String.length t <= 500)%nat -> firstn_str 500 t = t)) /\
  (truthy (dget record "tags_list" PNone) = false ->
   dget record "tags" PNone = PStr "No tags") /\
  (forall strs,
     dget record "tags_list" PNone = PList (map PStr strs) -> strs <> [] ->
     dget record "tags" PNone = PStr (join ", " strs)) /\
  (exists u w h,
     dget record "thumbnail_object" PNone
     = PDict [("url", u); ("width", w); ("height", h)] /\
     dget record "thumbnail_url" PNone = (if truthy u then u else PStr "No thumbnail")).
Proof.
  unfold extract_video_info. intro H. invert_binds H. injection H as <-.
  split; [|split; [|split]].
  - intros t Ht. cbn in Ht. subst.
    match goal with
    | S : py_slice_to 500 (PStr t) = Ok ?d |- _ => simpl in S; injection S as <-
    end.
    split; [reflexivity|]. split; [apply firstn_str_prefix|].
    split; [apply firstn_str_length|apply firstn_str_all].
  - intro Ht. cbn in Ht.
    match goal with
    | S : (if truthy ?a then _ else _) = Ok _ |- _ => rewrite Ht in S; injection S as <-
    end.
    reflexivity.
  - intros strs Ht Hne. cbn in Ht. subst.
    match goal with
    | S : (if truthy ?a then _ else _) = Ok _ |- _ =>
        unfold py_join in S; cbn [py_iter bind] in S;
        rewrite mapM_as_str_map in S; cbn [bind] in S;
        destruct strs; [congruence|]; cbn [truthy map] in S; injection S as <-
    end.
    reflexivity.
  - do 3 eexists. split; reflexivity.
Qed.

Lemma record_derived_fields_witness :
  truthy (dget (bare_record (PStr "abc")) "tags_list" PNone) = false /\
  dget (bare_record (PStr "abc")) "tags" PNone = PStr "No tags".
Proof.
  split; [reflexivity|].
  apply (proj1 (proj2 (record_derived_fields [("id", PStr "abc")]
                         (bare_record (PStr "abc")) eq_refl))).
  reflexivity.
Defined.

(** Where the title-search normaliser makes a record, the general one makes
    one too, with the same values in the fields they share; its description
    is the short description of the other, its duration the raw token and
    its thumbnail text the url of the other's thumbnail object. *)
Theorem normaliser_variants_agree (video record : dict) :
  extract_video_info video = Ok record ->
  exists general,
    extract_video_info_general video = Ok general /\
    Forall (fun k => assoc k general = assoc k record) shared_fields /\
    assoc "description" general = assoc "description_short" record /\
    dget general "duration" PNone = raw_duration video /\
    exists w h,
      dget record "thumbnail_object" PNone
      = PDict [("url", dget general "thumbnail_url" PNone); ("width", w); ("height", h)].
Proof.
  unfold extract_video_info, extract_video_info_general, raw_duration. intro H.
  destruct (dget video "contentDetails" (PDict [])) as [| | | | |cd] eqn:Ecd;
    try (destruct (py_get (dget video "statistics" (PDict [])) "viewCount" (PInt 0));
         cbn [bind] in H; try discriminate H;
         destruct (py_int a); cbn [bind] in H; discriminate H).
  invert_binds H. injection H as <-.
  cbv beta iota delta [bind].
  repeat match goal with
  | E : ?c = Ok _ |- context [?c] => rewrite E; cbv beta iota delta [bind]
  end.
  eexists. split; [reflexivity|].
  split; [repeat constructor|]. split; [reflexivity|].
  match goal with
  | E : py_get (PDict cd) "duration" _ = Ok _ |- _ => cbn [py_get] in E; injection E as <-
  end.
  split; [reflexivity|]. do 2 eexists. reflexivity.
Qed.

Lemma normaliser_variants_agree_witness :
  exists general,
    extract_video_info_general [("id", PStr "abc")] = Ok general /\
    Forall (fun k => assoc k general = assoc k (bare_record (PStr "abc"))) shared_fields.
Proof.
  destruct (normaliser_variants_agree [("id", PStr "abc")] (bare_record (PStr "abc"))
              eq_refl) as (g & E & F & _).
  exists g. split; assumption.
Defined.

Lemma records_text_titles_filter (records : list dict) (p : dict -> bool) :
  Forall has_text_title records -> Forall has_text_title (filter p records).
Proof. apply Pipeline.Forall_filter. Qed.

(** Keywords only remove records from the output of the batch pipeline:
    what it returns with keywords is what it returns without them, in the
    same order, less the records whose title matches no keyword. *)
Theorem process_video_batch_keywords_only_remove
    (raw records : list dict) (min_views : Z) (k : string) (ks : list string) :
  mapM extract_video_info raw = Ok records ->
  Forall has_text_title records ->
  exists everything,
    process_video_batch raw min_views None = Ok everything /\
    process_video_batch raw min_views (Some (k :: ks))
    = Ok (filter (title_matches false (k :: ks)) everything).
Proof.
  intros E T. unfold process_video_batch. rewrite E. cbn [bind].
  pose proof (records_int_views raw records (mapM_Forall2 _ _ _ E)) as K.
  rewrite (filter_by_views_filter records min_views K). cbn [bind].
  set (passed := filter (passes_views min_views) records).
  rewrite filter_by_keywords_in_title_filter by (now apply records_text_titles_filter).
  cbn [bind].
  destruct (sort_videos_filter passed "view_count" true (title_matches false (k :: ks)))
    as (out & Eo & Ef).
  { left. apply Pipeline.Forall_filter. exact K. }
  exists out. split; assumption.
Qed.

Lemma process_video_batch_keywords_only_remove_witness :
  exists everything,
    process_video_batch [stub_with_views "a" "5000"] 10 None = Ok everything /\
    process_video_batch [stub_with_views "a" "5000"] 10 (Some ["space"])
    = Ok (filter (title_matches false ["space"]) everything).
Proof.
  eapply (process_video_batch_keywords_only_remove [stub_with_views "a" "5000"]).
  - reflexivity.
  - repeat constructor. eexists. reflexivity.
Defined.







End Records.
